(** * youtube-helper: the analysis route handler

    A shallow embedding of [src/app/api/analyze/route.ts]: the tolerant
    parser of the model's answer ([parseJsonResponse]), the field-by-field
    sanitisation ([safePayload]), the prompt, and the handler [POST] with
    its effects on the scratch directory and on the two vendor calls. *)

From Stdlib Require Import NArith Ascii String List Lia.
From stdpp Require Import base decidable option list gmap sets.

Set Warnings "-register-all".

Local Open Scope N_scope.
Local Open Scope list_scope.

(** ** JavaScript strings

    A JavaScript string is a sequence of UTF-16 code units.  The regular
    expressions of the handler carry no [u] flag and [String.prototype.trim]
    is defined on code units, so the code unit is the right grain. *)

Definition js_string := list N.

Definition ch (a : ascii) : N := N_of_ascii a.
Arguments ch _%_char : simpl never.

(** [str "abc"] is the JavaScript string literal ["abc"] (ASCII only). *)
Definition str (s : string) : js_string := map N_of_ascii (list_ascii_of_string s).
Arguments str _%_string.

Definition quote : N := 34.
Definition backslash : N := 92.

(** [qstr "{'a':1}"] is [str] with every apostrophe standing for a double
    quote, to write JSON texts legibly. *)
Definition qstr (s : string) : js_string :=
  map (fun c => if c =? ch "'" then quote else c) (str s).
Arguments qstr _%_string.

Definition in_range (lo hi c : N) : bool := (lo <=? c) && (c <=? hi).

Definition is_digit (c : N) : bool := in_range (ch "0") (ch "9") c.
Definition is_lower (c : N) : bool := in_range (ch "a") (ch "z") c.
Definition is_upper (c : N) : bool := in_range (ch "A") (ch "Z") c.

(** [\w] without the [u] and [i] flags: [A-Za-z0-9_]. *)
Definition is_word_char (c : N) : bool :=
  is_lower c || is_upper c || is_digit c || (c =? ch "_").

(** WhiteSpace and LineTerminator of ECMA-262, the code units that
    [String.prototype.trim] strips (and that [\s] matches). *)
Definition is_js_space (c : N) : bool :=
  in_range 9 13 c || (c =? 32) || (c =? 160) || (c =? 5760)
  || in_range 8192 8202 c || (c =? 8232) || (c =? 8233) || (c =? 8239)
  || (c =? 8287) || (c =? 12288) || (c =? 65279).

Fixpoint trimStart (s : js_string) : js_string :=
  match s with
  | c :: r => if is_js_space c then trimStart r else s
  | [] => []
  end.

Fixpoint trimEnd (s : js_string) : js_string :=
  match s with
  | c :: r =>
      match trimEnd r with
      | [] => if is_js_space c then [] else [c]
      | r' => c :: r'
      end
  | [] => []
  end.

(** [s.trim()] *)
Definition trim (s : js_string) : js_string := trimEnd (trimStart s).

(** [s.includes(sub)] *)
Fixpoint starts_with (sub s : js_string) : bool :=
  match sub, s with
  | [], _ => true
  | a :: sub', b :: s' => (a =? b) && starts_with sub' s'
  | _ :: _, [] => false
  end.

Fixpoint includes (s sub : js_string) : bool :=
  starts_with sub s ||
  match s with
  | _ :: r => includes r sub
  | [] => false
  end.

(** ** Exceptions and results *)

Inductive exn :=
  | SyntaxError (input : js_string)   (* JSON.parse rejected [input] *)
  | TypeError (what : string)         (* property read on null, call of a non-function *)
  | BodyError                         (* request.formData() rejected *)
  | IOError (path : js_string)        (* the write stream or the pipeline failed *)
  | VendorError (what : string).      (* uploadFile or generateContent rejected *)

Inductive result (A : Type) :=
  | Ok (a : A)
  | Throw (e : exn).
Arguments Ok {A} a.
Arguments Throw {A} e.

(** ** JSON values

    What [JSON.parse] returns.  A number keeps its literal; no claim
    about the handler looks at a number's value.  An object keeps its own
    properties in insertion order, each name once. *)

Inductive json :=
  | JNull
  | JBool (b : bool)
  | JNumber (literal : js_string)
  | JString (s : js_string)
  | JArray (elems : list json)
  | JObject (members : list (js_string * json)).

Module JSON.

(** *** Tokens (ECMA-404) *)

Inductive token :=
  | TLBrace | TRBrace | TLBracket | TRBracket | TColon | TComma
  | TString (s : js_string)
  | TNumber (literal : js_string)
  | TTrue | TFalse | TNull.

(** JSON whitespace is only tab, line feed, carriage return and space. *)
Definition is_ws (c : N) : bool :=
  (c =? 9) || (c =? 10) || (c =? 13) || (c =? 32).

Definition is_number_char (c : N) : bool :=
  is_digit c || (c =? ch "-") || (c =? ch "+") || (c =? ch ".")
  || (c =? ch "e") || (c =? ch "E").

(** The number grammar, as an automaton:
    an optional minus; a lone 0 or a digit 1-9 followed by digits; an
    optional fraction (a dot and one digit or more); an optional exponent
    (e or E, an optional sign, one digit or more). *)
Inductive num_state :=
  | NStart | NMinus | NZero | NInt | NDot | NFrac | NE | NESign | NExp | NBad.

Definition num_step (st : num_state) (c : N) : num_state :=
  match st with
  | NStart =>
      if c =? ch "-" then NMinus
      else if c =? ch "0" then NZero
      else if is_digit c then NInt else NBad
  | NMinus =>
      if c =? ch "0" then NZero
      else if is_digit c then NInt else NBad
  | NZero =>
      if c =? ch "." then NDot
      else if (c =? ch "e") || (c =? ch "E") then NE else NBad
  | NInt =>
      if is_digit c then NInt
      else if c =? ch "." then NDot
      else if (c =? ch "e") || (c =? ch "E") then NE else NBad
  | NDot => if is_digit c then NFrac else NBad
  | NFrac =>
      if is_digit c then NFrac
      else if (c =? ch "e") || (c =? ch "E") then NE else NBad
  | NE =>
      if (c =? ch "+") || (c =? ch "-") then NESign
      else if is_digit c then NExp else NBad
  | NESign => if is_digit c then NExp else NBad
  | NExp => if is_digit c then NExp else NBad
  | NBad => NBad
  end.

Definition valid_number (s : js_string) : bool :=
  match fold_left num_step s NStart with
  | NZero | NInt | NFrac | NExp => true
  | _ => false
  end.

Definition hex_value (c : N) : option N :=
  if is_digit c then Some (c - ch "0")
  else if in_range (ch "a") (ch "f") c then Some (c - ch "a" + 10)
  else if in_range (ch "A") (ch "F") c then Some (c - ch "A" + 10)
  else None.

Definition escape_value (c : N) : option N :=
  if (c =? quote) || (c =? backslash) || (c =? ch "/") then Some c
  else if c =? ch "b" then Some 8
  else if c =? ch "f" then Some 12
  else if c =? ch "n" then Some 10
  else if c =? ch "r" then Some 13
  else if c =? ch "t" then Some 9
  else None.

(** The lexer reads one code unit at a time.  Accumulators are kept in
    reverse. *)
Inductive lex_state :=
  | LIdle
  | LString (acc : js_string)
  | LEscape (acc : js_string)
  | LUnicode (acc : js_string) (remaining : nat) (value : N)
  | LNumber (acc : js_string)
  | LWord (acc : js_string).

Definition word_token (w : js_string) : option token :=
  if bool_decide (w = str "true") then Some TTrue
  else if bool_decide (w = str "false") then Some TFalse
  else if bool_decide (w = str "null") then Some TNull
  else None.

Definition number_token (w : js_string) : option token :=
  if valid_number w then Some (TNumber w) else None.

(** A code unit met outside any token. *)
Definition lex_idle (c : N) : option (lex_state * list token) :=
  if is_ws c then Some (LIdle, [])
  else if c =? ch "{" then Some (LIdle, [TLBrace])
  else if c =? ch "}" then Some (LIdle, [TRBrace])
  else if c =? ch "[" then Some (LIdle, [TLBracket])
  else if c =? ch "]" then Some (LIdle, [TRBracket])
  else if c =? ch ":" then Some (LIdle, [TColon])
  else if c =? ch "," then Some (LIdle, [TComma])
  else if c =? quote then Some (LString [], [])
  else if is_digit c || (c =? ch "-") then Some (LNumber [c], [])
  else if is_lower c then Some (LWord [c], [])
  else None.

(** One step: the new state and the tokens completed by this code unit.
    A number or a word ends at the first code unit outside its class;
    that code unit is then read as in the idle state. *)
Definition lex_step (st : lex_state) (c : N) : option (lex_state * list token) :=
  match st with
  | LIdle => lex_idle c
  | LString acc =>
      if c =? quote then Some (LIdle, [TString (rev acc)])
      else if c =? backslash then Some (LEscape acc, [])
      else if c <? 32 then None
      else Some (LString (c :: acc), [])
  | LEscape acc =>
      if c =? ch "u" then Some (LUnicode acc 4 0, [])
      else match escape_value c with
           | Some v => Some (LString (v :: acc), [])
           | None => None
           end
  | LUnicode acc remaining value =>
      match hex_value c with
      | Some d =>
          match remaining with
          | 1%nat => Some (LString ((value * 16 + d) :: acc), [])
          | _ => Some (LUnicode acc (pred remaining) (value * 16 + d), [])
          end
      | None => None
      end
  | LNumber acc =>
      if is_number_char c then Some (LNumber (c :: acc), [])
      else match number_token (rev acc), lex_idle c with
           | Some t, Some (st', ts) => Some (st', t :: ts)
           | _, _ => None
           end
  | LWord acc =>
      if is_lower c then Some (LWord (c :: acc), [])
      else match word_token (rev acc), lex_idle c with
           | Some t, Some (st', ts) => Some (st', t :: ts)
           | _, _ => None
           end
  end.

(** At the end of the text a pending number or word is completed; an
    open string is an error. *)
Definition lex_end (st : lex_state) : option (list token) :=
  match st with
  | LIdle => Some []
  | LNumber acc => option_map (fun t => [t]) (number_token (rev acc))
  | LWord acc => option_map (fun t => [t]) (word_token (rev acc))
  | _ => None
  end.

Fixpoint lex (st : lex_state) (text : js_string) : option (list token) :=
  match text with
  | [] => lex_end st
  | c :: rest =>
      match lex_step st c with
      | Some (st', ts) => option_map (app ts) (lex st' rest)
      | None => None
      end
  end.

(** *** The parser: a pushdown automaton over the tokens *)

(** [obj[k] = v]: a repeated name keeps its place and takes the later
    value. *)
Fixpoint set_member (k : js_string) (v : json) (ms : list (js_string * json))
  : list (js_string * json) :=
  match ms with
  | [] => [(k, v)]
  | (k', v') :: r =>
      if bool_decide (k = k') then (k, v) :: r else (k', v') :: set_member k v r
  end.

(** An open array with its elements so far (reversed), or an open
    object with its members so far and the name waiting for its value. *)
Inductive frame :=
  | FArray (acc : list json)
  | FObject (acc : list (js_string * json)) (key : option js_string).

Inductive mode :=
  | MValue                (* a value must follow *)
  | MArrayStart           (* just after [: a value or ] *)
  | MObjectStart          (* just after {: a name or } *)
  | MKey                  (* after a comma in an object: a name *)
  | MColon                (* after a name: a colon *)
  | MAfter (v : json).    (* a value is complete *)

Definition scalar (t : token) : option json :=
  match t with
  | TString s => Some (JString s)
  | TNumber n => Some (JNumber n)
  | TTrue => Some (JBool true)
  | TFalse => Some (JBool false)
  | TNull => Some JNull
  | _ => None
  end.

Definition begin_value (t : token) (stack : list frame) : option (mode * list frame) :=
  match t with
  | TLBracket => Some (MArrayStart, FArray [] :: stack)
  | TLBrace => Some (MObjectStart, FObject [] None :: stack)
  | _ => option_map (fun v => (MAfter v, stack)) (scalar t)
  end.

Definition begin_key (t : token) (stack : list frame) : option (mode * list frame) :=
  match t, stack with
  | TString k, FObject acc None :: stack' => Some (MColon, FObject acc (Some k) :: stack')
  | _, _ => None
  end.

Definition parse_step (m : mode) (stack : list frame) (t : token)
  : option (mode * list frame) :=
  match m with
  | MValue => begin_value t stack
  | MArrayStart =>
      match t, stack with
      | TRBracket, FArray acc :: stack' => Some (MAfter (JArray (rev acc)), stack')
      | _, _ => begin_value t stack
      end
  | MObjectStart =>
      match t, stack with
      | TRBrace, FObject acc None :: stack' => Some (MAfter (JObject acc), stack')
      | _, _ => begin_key t stack
      end
  | MKey => begin_key t stack
  | MColon =>
      match t with
      | TColon => Some (MValue, stack)
      | _ => None
      end
  | MAfter v =>
      match stack, t with
      | FArray acc :: stack', TComma => Some (MValue, FArray (v :: acc) :: stack')
      | FArray acc :: stack', TRBracket => Some (MAfter (JArray (rev (v :: acc))), stack')
      | FObject acc (Some k) :: stack', TComma =>
          Some (MKey, FObject (set_member k v acc) None :: stack')
      | FObject acc (Some k) :: stack', TRBrace =>
          Some (MAfter (JObject (set_member k v acc)), stack')
      | _, _ => None
      end
  end.

Fixpoint parse_tokens (m : mode) (stack : list frame) (ts : list token) : option json :=
  match ts with
  | [] =>
      match m, stack with
      | MAfter v, [] => Some v
      | _, _ => None
      end
  | t :: rest =>
      match parse_step m stack t with
      | Some (m', stack') => parse_tokens m' stack' rest
      | None => None
      end
  end.

(** [JSON.parse(text)] without a reviver. *)
Definition parse (text : js_string) : result json :=
  match lex LIdle text with
  | Some ts =>
      match parse_tokens MValue [] ts with
      | Some v => Ok v
      | None => Throw (SyntaxError text)
      end
  | None => Throw (SyntaxError text)
  end.

End JSON.

#[export] Instance result_ret : MRet result := fun _ a => Ok a.
#[export] Instance result_bind : MBind result := fun _ _ f m =>
  match m with
  | Ok a => f a
  | Throw e => Throw e
  end.

(** ** Regular expressions

    The pattern of the parser is a sequence of single-character classes,
    one of them under a greedy star.  [match_here] is the backtracking
    matcher of ECMA-262 restricted to such patterns: a star first takes as
    many code units as it can and gives them back one at a time. *)

Inductive atom :=
  | One (cls : N -> bool)
  | Star (cls : N -> bool).

Fixpoint match_here (re : list atom) : js_string -> option js_string :=
  match re with
  | [] => fun _ => Some []
  | One cls :: re' => fun s =>
      match s with
      | c :: r => if cls c then option_map (cons c) (match_here re' r) else None
      | [] => None
      end
  | Star cls :: re' =>
      fix star (s : js_string) : option js_string :=
        match s with
        | c :: r =>
            if cls c then
              match star r with
              | Some m => Some (c :: m)
              | None => match_here re' s
              end
            else match_here re' s
        | [] => match_here re' []
        end
  end.

(** [text.match(re)] for a pattern without the [g] flag: the match at the
    leftmost position that has one ([match[0]]), or [null]. *)
Fixpoint regex_match (re : list atom) (text : js_string) : option js_string :=
  match match_here re text with
  | Some m => Some m
  | None =>
      match text with
      | _ :: r => regex_match re r
      | [] => None
      end
  end.

Definition any_char (c : N) : bool := is_js_space c || negb (is_js_space c).

(** [/\{[\s\S]*\}/] *)
Definition braces_re : list atom :=
  [One (N.eqb (ch "{")); Star any_char; One (N.eqb (ch "}"))].

(** ** parseJsonResponse (route.ts, lines 44-54) *)

Definition parseJsonResponse (text : js_string) : result json :=
  match JSON.parse text with
  | Ok payload => Ok payload
  | Throw error =>
      match regex_match braces_re text with
      | Some m => JSON.parse m
      | None => Throw error
      end
  end.

(** The spec's words for the fallback: the first brace-delimited substring,
    which runs from the first opening brace of the text to the last closing
    brace after it. *)
Fixpoint drop_until (c : N) (s : js_string) : js_string :=
  match s with
  | x :: r => if x =? c then s else drop_until c r
  | [] => []
  end.

Definition spec_first_brace_delimited (text : js_string) : option js_string :=
  match drop_until (ch "{") text with
  | [] => None
  | open :: r =>
      match rev (drop_until (ch "}") (rev r)) with
      | [] => None
      | body => Some (open :: body)
      end
  end.

(** ** Sanitisation (route.ts, lines 130-135) *)

Fixpoint own_property (k : js_string) (ms : list (js_string * json)) : option json :=
  match ms with
  | [] => None
  | (k', v) :: r => if bool_decide (k = k') then Some v else own_property k r
  end.

(** [payload.k] for the four field names of the payload, none of which a
    built-in prototype defines: the own property of an object, [undefined]
    ([None]) on an array or a primitive, a [TypeError] on [null]. *)
Definition get (payload : json) (k : js_string) : result (option json) :=
  match payload with
  | JNull => Throw (TypeError "Cannot read properties of null")
  | JObject ms => Ok (own_property k ms)
  | _ => Ok None
  end.

(** [a.slice(start, end)] for indices that are natural numbers. *)
Definition slice (start end_ : nat) (a : list json) : list json :=
  take (end_ - start) (drop start a).

(** [Array.isArray(v) ? v.slice(0, n) : []] *)
Definition array_or_empty (v : option json) (n : nat) : json :=
  match v with
  | Some (JArray a) => JArray (slice 0 n a)
  | _ => JArray []
  end.

(** [typeof v === "string" ? v : ""] *)
Definition string_or_empty (v : option json) : json :=
  match v with
  | Some (JString s) => JString s
  | _ => JString []
  end.

Definition safePayload (payload : json) : result json :=
  titles ← get payload (str "titles");
  description ← get payload (str "description");
  tags ← get payload (str "tags");
  thumbnails ← get payload (str "thumbnails");
  mret (JObject [ (str "titles", array_or_empty titles 5);
                  (str "description", string_or_empty description);
                  (str "tags", array_or_empty tags 30);
                  (str "thumbnails", array_or_empty thumbnails 3) ]).

(** ** The request *)

Module File.
Record t := { name : js_string; type : js_string; bytes : list N }.
End File.

Inductive FormDataEntryValue :=
  | EntryString (s : js_string)
  | EntryFile (f : File.t).

Module FormData.
Definition t := list (js_string * FormDataEntryValue).

(** [formData.get(k)]: the first value of that name, or [null]. *)
Fixpoint get (fd : t) (k : js_string) : option FormDataEntryValue :=
  match fd with
  | [] => None
  | (k', v) :: r => if bool_decide (k = k') then Some v else get r k
  end.

(** [formData.getAll(k)] *)
Fixpoint getAll (fd : t) (k : js_string) : list FormDataEntryValue :=
  match fd with
  | [] => []
  | (k', v) :: r => if bool_decide (k = k') then v :: getAll r k else getAll r k
  end.
End FormData.

(** [request.formData()] rejects when the body is not a form ([None]). *)
Record Request := { form : option FormData.t }.

(** [String(v)] *)
Definition String_ (v : FormDataEntryValue) : js_string :=
  match v with
  | EntryString s => s
  | EntryFile _ => str "[object File]"
  end.

(** [Boolean(v)]: of the values of a form only the empty string is falsy. *)
Definition Boolean (v : FormDataEntryValue) : bool :=
  match v with
  | EntryString [] => false
  | _ => true
  end.

(** [a || b] on strings *)
Definition or_else (a b : js_string) : js_string :=
  match a with
  | [] => b
  | _ => a
  end.

(** [!v] for a value that is a string or [undefined] *)
Definition falsy (v : option js_string) : bool :=
  match v with
  | None | Some [] => true
  | Some _ => false
  end.

(** [String(formData.get("context") ?? "")] *)
Definition supplied_context (formData : FormData.t) : js_string :=
  String_ (default (EntryString []) (FormData.get formData (str "context"))).

(** [String(formData.get("context") ?? "").trim()] (line 67) *)
Definition context (formData : FormData.t) : js_string :=
  trim (supplied_context formData).

(** ** The prompt (lines 93-103) *)

Definition placeholder : js_string := str "None provided.".

Definition template_before : js_string := str "
You are a YouTube growth strategist. Analyze the video content and return a JSON object with:
- titles: 5 high-CTR YouTube title suggestions.
- description: an SEO-optimized description with timestamps (use mm:ss format and realistic chapter labels).
- tags: 30 relevant tags, lower case, no hashtags.
- thumbnails: 3 detailed thumbnail concept descriptions (text only, no image generation).

Additional context from creator: ".

Definition template_after : js_string := str "

Return only valid JSON with keys: titles, description, tags, thumbnails.
  ".

Definition prompt (context : js_string) : js_string :=
  trim (template_before ++ or_else context placeholder ++ template_after).

(** The fixed text around the interpolated context, as the model reads it. *)
Definition instructions : js_string := trimStart template_before.
Definition closing : js_string := trimEnd template_after.

(** The spec's words: the supplied context text is interpolated as it is,
    and the placeholder stands for an absent or empty context field. *)
Definition spec_prompt (field : option js_string) : js_string :=
  match field with
  | None | Some [] => instructions ++ placeholder ++ closing
  | Some supplied => instructions ++ supplied ++ closing
  end.

(** ** Temporary file name (lines 25-26) *)

Definition is_name_char (c : N) : bool :=
  is_word_char c || (c =? ch ".") || (c =? ch "-").

(** [name.replace(/[^\w.-]+/g, "_")]: every maximal run of other code
    units becomes one underscore. *)
Fixpoint replace_runs (in_run : bool) (s : js_string) : js_string :=
  match s with
  | [] => []
  | c :: r =>
      if is_name_char c then c :: replace_runs false r
      else if in_run then replace_runs true r
      else ch "_" :: replace_runs true r
  end.

Definition safeName (file : File.t) : js_string := replace_runs false (File.name file).

(** [path.join("/tmp", `yt-helper-${uuid}-${safeName}`)]; the second
    segment holds no separator, so joining is concatenation. *)
Definition tempPathOf (uuid : js_string) (file : File.t) : js_string :=
  str "/tmp" ++ str "/" ++ str "yt-helper-" ++ uuid ++ str "-" ++ safeName file.

(** ** Inline image parts (lines 34-42) *)

Definition base64_digit (i : N) : N :=
  if i <? 26 then ch "A" + i
  else if i <? 52 then ch "a" + (i - 26)
  else if i <? 62 then ch "0" + (i - 52)
  else if i =? 62 then ch "+" else ch "/".

(** [buffer.toString("base64")] *)
Fixpoint base64 (bs : list N) : js_string :=
  match bs with
  | a :: b :: c :: r =>
      base64_digit (a / 4) :: base64_digit (a mod 4 * 16 + b / 16)
      :: base64_digit (b mod 16 * 4 + c / 64) :: base64_digit (c mod 64) :: base64 r
  | [a; b] =>
      [base64_digit (a / 4); base64_digit (a mod 4 * 16 + b / 16);
       base64_digit (b mod 16 * 4); ch "="]
  | [a] => [base64_digit (a / 4); base64_digit (a mod 4 * 16); ch "="; ch "="]
  | [] => []
  end.

Inductive Part :=
  | TextPart (text : js_string)
  | FileDataPart (fileUri mimeType : js_string)
  | InlineDataPart (data mimeType : js_string).

(** The entries of [images] are cast to [File] unchecked; on a string
    [file.arrayBuffer] is not a function. *)
Definition fileToInlinePart (file : FormDataEntryValue) : result Part :=
  match file with
  | EntryFile f =>
      Ok (InlineDataPart (base64 (File.bytes f)) (or_else (File.type f) (str "image/jpeg")))
  | EntryString _ => Throw (TypeError "file.arrayBuffer is not a function")
  end.

(** [Promise.all(files.map(f))] *)
Fixpoint Promise_all {A B} (f : A -> result B) (l : list A) : result (list B) :=
  match l with
  | [] => Ok []
  | a :: r =>
      match f a, Promise_all f r with
      | Ok b, Ok bs => Ok (b :: bs)
      | Throw e, _ => Throw e
      | Ok _, Throw e => Throw e
      end
  end.

(** ** The world of the handler

    The scratch directory, and a trace of the file operations and vendor
    calls in the order they are made. *)

Inductive event :=
  | EvWrite (path : js_string)                       (* createWriteStream + pipeline *)
  | EvUpload (path mimeType displayName : js_string) (* fileManager.uploadFile *)
  | EvUnlink (path : js_string)                      (* unlink *)
  | EvGenerate (parts : list Part).                  (* model.generateContent *)

Record World := { files : gset js_string; trace : list event }.

(** How the copy of the video to the scratch directory ends: the file is
    complete, the file could not be opened, or the stream broke and left a
    partial file. *)
Inductive write_outcome := Written | OpenFailed | StreamFailed.

Record Upload := { uri : js_string; mimeType : js_string }.

(** Everything the handler does not decide itself.  The vendor clients
    are built from the credential of the same environment, and the model
    name and the generation parameters are constants, so the two calls are
    functions of their remaining arguments. *)
Record Env := {
  GEMINI_API_KEY : option js_string;         (* process.env.GEMINI_API_KEY *)
  randomUUID : js_string;                    (* crypto.randomUUID() *)
  pipeline : File.t -> js_string -> write_outcome;
  uploadFile : js_string -> js_string -> js_string -> result Upload;
  unlink_succeeds : js_string -> bool;
  generateContent : list Part -> result js_string
    (* the text of the answer; a rejected call and a throwing
       [response.text()] are both [Throw] *)
}.

(** Computations that change the world and may throw. *)
Definition M (A : Type) : Type := World -> result A * World.

#[export] Instance M_ret : MRet M := fun _ a w => (Ok a, w).
#[export] Instance M_bind : MBind M := fun _ _ f m w =>
  match m w with
  | (Ok a, w') => f a w'
  | (Throw e, w') => (Throw e, w')
  end.

Definition throw {A} (e : exn) : M A := fun w => (Throw e, w).

Definition lift {A} (r : result A) : M A := fun w => (r, w).

Definition emit (ev : event) : M unit :=
  fun w => (Ok (), {| files := files w; trace := trace w ++ [ev] |}).

Definition create (path : js_string) : M unit :=
  fun w => (Ok (), {| files := {[path]} ∪ files w; trace := trace w |}).

Definition remove (path : js_string) : M unit :=
  fun w => (Ok (), {| files := files w ∖ {[path]}; trace := trace w |}).

(** [try { body } finally { cleanup }]: the cleanup runs on both exits;
    if it throws, its exception replaces the outcome of the body. *)
Definition try_finally {A} (body : M A) (cleanup : M unit) : M A := fun w =>
  let (r, w1) := body w in
  match cleanup w1 with
  | (Ok _, w2) => (r, w2)
  | (Throw e, w2) => (Throw e, w2)
  end.

(** [p.catch(() => null)] *)
Definition catch_null (p : M unit) : M unit := fun w =>
  match p w with
  | (Ok u, w') => (Ok u, w')
  | (Throw _, w') => (Ok (), w')
  end.

(** [unlink(path)]: rejects, leaving the directory as it is, when the
    file is not there or the system refuses. *)
Definition unlink (env : Env) (path : js_string) : M unit := fun w =>
  let w1 := {| files := files w; trace := trace w ++ [EvUnlink path] |} in
  if bool_decide (path ∈ files w) && unlink_succeeds env path
  then remove path w1
  else (Throw (IOError path), w1).

(** toTempFile (lines 24-32) *)
Definition toTempFile (env : Env) (file : File.t) : M js_string :=
  let tempPath := tempPathOf (randomUUID env) file in
  emit (EvWrite tempPath);;
  match pipeline env file tempPath with
  | Written => create tempPath;; mret tempPath
  | OpenFailed => throw (IOError tempPath)
  | StreamFailed => create tempPath;; throw (IOError tempPath)
  end.

(** ** Responses *)

Record Response := { status : N; body : json }.

(** [NextResponse.json(body, { status })] *)
Definition NextResponse_json (body : json) (status : N) : Response :=
  {| status := status; body := body |}.

Definition error_body (message : string) : json :=
  JObject [(str "error", JString (str message))].

(** ** POST (lines 56-138) *)

Definition videoMimeType (videoFile : File.t) : js_string :=
  or_else (File.type videoFile) (str "video/mp4").

Definition videoDisplayName (videoFile : File.t) : js_string :=
  or_else (File.name videoFile) (str "youtube-helper-video").

Definition imageFiles (formData : FormData.t) : list FormDataEntryValue :=
  filter (fun v => Is_true (Boolean v)) (FormData.getAll formData (str "images")).

Definition contents (formData : FormData.t) (upload : Upload) (inlineImages : list Part)
  : list Part :=
  TextPart (prompt (context formData))
  :: FileDataPart (uri upload) (mimeType upload)
  :: inlineImages.

(** Lines 128-137: parse the answer, sanitise it, answer 200. *)
Definition respond (text : js_string) : result Response :=
  payload ← parseJsonResponse text;
  safe ← safePayload payload;
  mret (NextResponse_json safe 200).

Definition POST (env : Env) (request : Request) : M Response :=
  if falsy (GEMINI_API_KEY env) then
    mret (NextResponse_json
            (error_body "Missing GEMINI_API_KEY environment variable.") 500)
  else
      formData ← lift (from_option Ok (Throw BodyError) (form request));
      match FormData.get formData (str "video") with
      | Some (EntryFile videoFile) =>
          tempPath ← toTempFile env videoFile;
          upload ← try_finally
                     (emit (EvUpload tempPath (videoMimeType videoFile)
                                     (videoDisplayName videoFile));;
                      lift (uploadFile env tempPath (videoMimeType videoFile)
                                       (videoDisplayName videoFile)))
                     (catch_null (unlink env tempPath));
          inlineImages ← lift (Promise_all fileToInlinePart (imageFiles formData));
          emit (EvGenerate (contents formData upload inlineImages));;
          text ← lift (generateContent env (contents formData upload inlineImages));
          lift (respond text)
      | _ => mret (NextResponse_json (error_body "Video file is required.") 400)
      end.

(** Modelled from the spec: the runtime that hosts the handler is not part
    of the repository.  The spec has every exception that leaves the
    handler reported as the same server-error response, status 500,
    whatever the exception was. *)
Definition served_status (outcome : result Response) : N :=
  match outcome with
  | Ok response => status response
  | Throw _ => 500
  end.

(** * The page ([src/app/page.tsx])

    The state of the component [Home] and its handlers.  A handler is a
    function from the state of the render it closes over to the state
    once its updates are applied. *)

Module Home.

(** What a [catch] clause may receive: an [Error] with its message, or
    some other value. *)
Inductive thrown :=
  | ErrorObject (message : js_string)
  | NotAnError.

(** How [response.json()] ends. *)
Inductive json_outcome :=
  | JsonOk (data : json)
  | JsonRejected (err : thrown).

(** How [fetch] ends: rejected, or a response with its status. *)
Inductive fetched :=
  | FetchRejected (err : thrown)
  | Response (status : N) (json : json_outcome).

Record State := {
  videoFile : option File.t;
  imageFiles : list File.t;
  context : js_string;
  result : option json;
  isLoading : bool;
  error : option js_string
}.

Definition setVideoFile (v : option File.t) (s : State) : State :=
  {| videoFile := v; imageFiles := imageFiles s; context := context s;
     result := result s; isLoading := isLoading s; error := error s |}.

Definition setImageFiles (v : list File.t) (s : State) : State :=
  {| videoFile := videoFile s; imageFiles := v; context := context s;
     result := result s; isLoading := isLoading s; error := error s |}.

Definition setContext (v : js_string) (s : State) : State :=
  {| videoFile := videoFile s; imageFiles := imageFiles s; context := v;
     result := result s; isLoading := isLoading s; error := error s |}.

Definition setResult (v : option json) (s : State) : State :=
  {| videoFile := videoFile s; imageFiles := imageFiles s; context := context s;
     result := v; isLoading := isLoading s; error := error s |}.

Definition setIsLoading (v : bool) (s : State) : State :=
  {| videoFile := videoFile s; imageFiles := imageFiles s; context := context s;
     result := result s; isLoading := v; error := error s |}.

Definition setError (v : option js_string) (s : State) : State :=
  {| videoFile := videoFile s; imageFiles := imageFiles s; context := context s;
     result := result s; isLoading := isLoading s; error := v |}.

(** The state of the first render (lines 41-46). *)
Definition initial : State :=
  {| videoFile := None; imageFiles := []; context := []; result := None;
     isLoading := false; error := None |}.

(** onDropVideo (lines 48-51): [accepted[0] ?? null] *)
Definition onDropVideo (accepted : list File.t) (s : State) : State :=
  setVideoFile (head accepted) (setError None s).

(** onDropImages (lines 53-56) *)
Definition onDropImages (accepted : list File.t) (s : State) : State :=
  setImageFiles accepted (setError None s).

(** onDropRejected of the video drop zone (lines 64-66) *)
Definition onDropRejected (s : State) : State :=
  setError (Some (str "Video must be MP4, MOV, or WEBM and under 500MB.")) s.

(** The form of lines 106-109: the video, one [images] entry per image,
    the context. *)
Definition formData_of (video : File.t) (images : list File.t) (ctx : js_string)
  : FormData.t :=
  (str "video", EntryFile video)
  :: map (λ file, (str "images", EntryFile file)) images
  ++ [(str "context", EntryString ctx)].

(** [response.ok] *)
Definition ok (status : N) : bool := (200 <=? status) && (status <=? 299).

Section handleAnalyze.

(** [String(v)] on a JSON value that is not a string, as [new Error(v)]
    applies it to its argument. *)
Variable ToString : json → js_string.

(** Lines 117-118: [payload?.error ?? "Analysis failed."] as the message
    of the new [Error], where [payload] is the body or [{}] when the body
    does not parse. *)
Definition failure_message (body : json_outcome) : js_string :=
  match body with
  | JsonOk (JObject ms) =>
      match own_property (str "error") ms with
      | None | Some JNull => str "Analysis failed."
      | Some (JString message) => message
      | Some v => ToString v
      end
  | _ => str "Analysis failed."
  end.

(** The [try] block of lines 105-122: the data to show, or what is
    thrown. *)
Definition exchange (fetch : FormData.t → fetched) (formData : FormData.t)
  : thrown + json :=
  match fetch formData with
  | FetchRejected err => inl err
  | Response status body =>
      if ok status then
        match body with
        | JsonOk data => inr data
        | JsonRejected err => inl err
        end
      else inl (ErrorObject (failure_message body))
  end.

(** A value given to [setResult]: the state is [AnalysisResult | null],
    so the body [null] is no result. *)
Definition of_json (data : json) : option json :=
  match data with
  | JNull => None
  | _ => Some data
  end.

(** handleAnalyze (lines 96-128) *)
Definition handleAnalyze (fetch : FormData.t → fetched) (s : State) : State :=
  match videoFile s with
  | None => setError (Some (str "Please upload a video file.")) s
  | Some video =>
      let s1 := setResult None (setIsLoading true (setError None s)) in
      let s2 :=
        match exchange fetch (formData_of video (imageFiles s) (context s)) with
        | inr data => setResult (of_json data) s1
        | inl (ErrorObject message) => setError (Some message) s1
        | inl NotAnError => setError (Some (str "Something went wrong.")) s1
        end in
      setIsLoading false s2
  end.

End handleAnalyze.

End Home.

(** * Vocabulary of the properties *)

(** The value of [payload.k] when the read does not throw. *)
Definition field (payload : json) (k : js_string) : option json :=
  match payload with
  | JObject ms => own_property k ms
  | _ => None
  end.

Definition is_array (v : option json) : bool :=
  match v with
  | Some (JArray _) => true
  | _ => false
  end.

Definition is_string (v : json) : bool :=
  match v with
  | JString _ => true
  | _ => false
  end.

(** The shape of the declared type [AnalysisPayload]: the four fields,
    three sequences whose elements are all strings, and a string. *)
Definition well_typed (b : json) : bool :=
  match b with
  | JObject [(k1, JArray t); (k2, JString _); (k3, JArray g); (k4, JArray h)] =>
      bool_decide (k1 = str "titles") && bool_decide (k2 = str "description")
      && bool_decide (k3 = str "tags") && bool_decide (k4 = str "thumbnails")
      && forallb is_string t && forallb is_string g && forallb is_string h
  | _ => false
  end.

(** The text of a field that is a string, the empty text otherwise. *)
Definition text_of (v : option json) : js_string :=
  match v with
  | Some (JString s) => s
  | _ => []
  end.

(** The elements of a field that is a sequence, none otherwise. *)
Definition elements (v : option json) : list json :=
  match v with
  | Some (JArray a) => a
  | _ => []
  end.

(** The spec's words for the truncation: a sequence within its cap is
    unchanged, a longer one is cut to its first [cap] elements. *)
Definition spec_truncate (cap : nat) (l : list json) : list json :=
  if (length l <=? cap)%nat then l else firstn cap l.

(** [n] distinct strings, to build sample payloads. *)
Definition sample_strings (n : nat) : list json :=
  map (λ i, JString [ch "a" + N.of_nat i]) (seq 0 n).

(** [[\s\S]*\}]: everything up to the last closing brace. *)
Definition upto_last_brace : js_string -> option js_string :=
  match_here [Star any_char; One (N.eqb (ch "}"))].

Definition fallback_sample : js_string :=
  qstr "Here is the result: {'titles':['A'],'description':'d','tags':[],'thumbnails':[]} Thanks!".

(** Both stages of the parser fail on [text]. *)
Definition both_parses_fail (text : js_string) : Prop :=
  (∃ e, JSON.parse text = Throw e)
  ∧ match regex_match braces_re text with
    | Some m => ∃ e, JSON.parse m = Throw e
    | None => True
    end.

(** The world once the video is written, uploaded (or not) and the
    removal of the temporary file attempted. *)
Definition after_upload (env : Env) (videoFile : File.t) (w : World) : World :=
  let tempPath := tempPathOf (randomUUID env) videoFile in
  {| files := if unlink_succeeds env tempPath
              then ({[tempPath]} ∪ files w) ∖ {[tempPath]}
              else {[tempPath]} ∪ files w;
     trace := trace w ++
              [EvWrite tempPath;
               EvUpload tempPath (videoMimeType videoFile) (videoDisplayName videoFile);
               EvUnlink tempPath] |}.

Definition after_generate (env : Env) (videoFile : File.t) (parts : list Part)
    (w : World) : World :=
  {| files := files (after_upload env videoFile w);
     trace := trace (after_upload env videoFile w) ++ [EvGenerate parts] |}.

(** The handler reaches the copy of the video and the copy succeeds. *)
Definition writes_temp_file (env : Env) (request : Request) (videoFile : File.t) : Prop :=
  falsy (GEMINI_API_KEY env) = false
  ∧ (∃ formData, form request = Some formData
                 ∧ FormData.get formData (str "video") = Some (EntryFile videoFile))
  ∧ pipeline env videoFile (tempPathOf (randomUUID env) videoFile) = Written.

(** The handler gets as far as the model, which answers [text]. *)
Definition model_answers (env : Env) (request : Request) (text : js_string) : Prop :=
  ∃ formData videoFile upload inlineImages,
    falsy (GEMINI_API_KEY env) = false
    ∧ form request = Some formData
    ∧ FormData.get formData (str "video") = Some (EntryFile videoFile)
    ∧ pipeline env videoFile (tempPathOf (randomUUID env) videoFile) = Written
    ∧ uploadFile env (tempPathOf (randomUUID env) videoFile)
                 (videoMimeType videoFile) (videoDisplayName videoFile) = Ok upload
    ∧ Promise_all fileToInlinePart (imageFiles formData) = Ok inlineImages
    ∧ generateContent env (contents formData upload inlineImages) = Ok text.

Definition sample_video : File.t :=
  {| File.name := str "my clip.mp4"; File.type := str "video/mp4"; File.bytes := [0; 1; 2] |}.

Definition sample_form : FormData.t :=
  [(str "video", EntryFile sample_video); (str "context", EntryString (str " cooking "))].

Definition sample_request : Request := {| form := Some sample_form |}.

Definition sample_upload : Upload := {| uri := str "files/1"; mimeType := str "video/mp4" |}.

(** An environment in which every outside operation succeeds and the
    model answers [answer]. *)
Definition sample_env (answer : js_string) : Env :=
  {| GEMINI_API_KEY := Some (str "key");
     randomUUID := str "3f0c";
     pipeline := λ _ _, Written;
     uploadFile := λ _ _ _, Ok sample_upload;
     unlink_succeeds := λ _, true;
     generateContent := λ _, Ok answer |}.

Definition with_unlink (env : Env) (u : js_string → bool) : Env :=
  {| GEMINI_API_KEY := GEMINI_API_KEY env;
     randomUUID := randomUUID env;
     pipeline := pipeline env;
     uploadFile := uploadFile env;
     unlink_succeeds := u;
     generateContent := generateContent env |}.

Definition with_uploadFile (env : Env)
    (f : js_string → js_string → js_string → result Upload) : Env :=
  {| GEMINI_API_KEY := GEMINI_API_KEY env;
     randomUUID := randomUUID env;
     pipeline := pipeline env;
     uploadFile := f;
     unlink_succeeds := unlink_succeeds env;
     generateContent := generateContent env |}.

Definition without_credential (env : Env) : Env :=
  {| GEMINI_API_KEY := None;
     randomUUID := randomUUID env;
     pipeline := pipeline env;
     uploadFile := uploadFile env;
     unlink_succeeds := unlink_succeeds env;
     generateContent := generateContent env |}.

Definition empty_world : World := {| files := ∅; trace := [] |}.

(** A byte, as a [File] holds them. *)
Definition is_byte (b : N) : Prop := b < 256.

Definition is_base64_char (c : N) : bool :=
  is_upper c || is_lower c || is_digit c
  || (c =? ch "+") || (c =? ch "/") || (c =? ch "=").

(** The value of a base64 digit and the decoding of padded base64, to
    state that the encoding of an image loses nothing. *)
Definition base64_value (c : N) : N :=
  if is_upper c then c - ch "A"
  else if is_lower c then c - ch "a" + 26
  else if is_digit c then c - ch "0" + 52
  else if c =? ch "+" then 62 else 63.

Fixpoint unbase64 (s : js_string) : list N :=
  match s with
  | c1 :: c2 :: c3 :: c4 :: r =>
      let v1 := base64_value c1 in
      let v2 := base64_value c2 in
      let v3 := base64_value c3 in
      let v4 := base64_value c4 in
      if c3 =? ch "=" then [v1 * 4 + v2 / 16]
      else if c4 =? ch "=" then [v1 * 4 + v2 / 16; v2 mod 16 * 16 + v3 / 4]
      else v1 * 4 + v2 / 16 :: v2 mod 16 * 16 + v3 / 4 :: v3 mod 4 * 64 + v4
           :: unbase64 r
  | _ => []
  end.


(** A body as the sanitisation builds it. *)
Definition sanitized (b : json) : Prop :=
  ∃ titles description tags thumbnails,
    b = JObject [(str "titles", JArray titles);
                 (str "description", JString description);
                 (str "tags", JArray tags);
                 (str "thumbnails", JArray thumbnails)]
    ∧ (length titles ≤ 5 ∧ length tags ≤ 30 ∧ length thumbnails ≤ 3)%nat.

(** A body that carries an error message. *)
Definition error_message_of (b : json) : option js_string :=
  match b with
  | JObject [(k, JString message)] =>
      if bool_decide (k = str "error") then Some message else None
  | _ => None
  end.

(** The outermost open value of the parser's stack is an object. *)
Fixpoint bottom_is_object (stack : list JSON.frame) : bool :=
  match stack with
  | [] => false
  | f :: r =>
      match r with
      | [] => match f with JSON.FObject _ _ => true | JSON.FArray _ => false end
      | _ => bottom_is_object r
      end
  end.

(** What the parser has read can only end as an object: an object is
    open at the bottom of the stack, or the value just completed at top
    level is an object. *)
Definition object_ahead (m : JSON.mode) (stack : list JSON.frame) : Prop :=
  bottom_is_object stack = true ∨ (stack = [] ∧ ∃ ms, m = JSON.MAfter (JObject ms)).

(** The body in which every field has its empty default. *)
Definition empty_payload : json :=
  JObject [(str "titles", JArray []);
           (str "description", JString []);
           (str "tags", JArray []);
           (str "thumbnails", JArray [])].

(** The response to the answer [{"titles":["A"]}]. *)
Definition sample_response : Response :=
  NextResponse_json
    (JObject [(str "titles", JArray [JString (str "A")]);
              (str "description", JString []);
              (str "tags", JArray []);
              (str "thumbnails", JArray [])]) 200.

(** The parts the model is given for a video, images and a context. *)
Definition parts_for (upload : Upload) (images : list File.t) (ctx : js_string)
  : list Part :=
  TextPart (prompt (trim ctx))
  :: FileDataPart (uri upload) (mimeType upload)
  :: map (λ image, InlineDataPart (base64 (File.bytes image))
                                  (or_else (File.type image) (str "image/jpeg")))
         images.

(** * Properties *)

(** ** Running the handler *)

Lemma POST_after_write (env : Env) (request : Request) (w : World)
    (formData : FormData.t) (videoFile : File.t) :
  falsy (GEMINI_API_KEY env) = false →
  form request = Some formData →
  FormData.get formData (str "video") = Some (EntryFile videoFile) →
  pipeline env videoFile (tempPathOf (randomUUID env) videoFile) = Written →
  POST env request w =
    match uploadFile env (tempPathOf (randomUUID env) videoFile)
                     (videoMimeType videoFile) (videoDisplayName videoFile) with
    | Throw e => (Throw e, after_upload env videoFile w)
    | Ok upload =>
        match Promise_all fileToInlinePart (imageFiles formData) with
        | Throw e => (Throw e, after_upload env videoFile w)
        | Ok inlineImages =>
            let parts := contents formData upload inlineImages in
            match generateContent env parts with
            | Throw e => (Throw e, after_generate env videoFile parts w)
            | Ok text => (respond text, after_generate env videoFile parts w)
            end
        end
    end.
Proof.
  intros Hkey Hform Hvideo Hwrite.
  unfold POST. rewrite Hkey.
  unfold mbind, M_bind at 1. unfold lift at 1. rewrite Hform. cbn [from_option].
  rewrite Hvideo.
  unfold toTempFile, try_finally, catch_null, unlink, lift, emit,
    create, remove, after_generate, after_upload.
  rewrite Hwrite. unfold mbind, M_bind, mret, M_ret. cbn [files trace fst snd].
  rewrite bool_decide_eq_true_2 by set_solver. cbn [andb].
  rewrite <- !app_assoc. cbn [app].
  destruct (uploadFile env _ _ _) as [upload|e];
    destruct (unlink_succeeds env _); try reflexivity;
    destruct (Promise_all _ _) as [inlineImages|e]; try reflexivity;
    destruct (generateContent env _); reflexivity.
Qed.

Lemma POST_model_answers (env : Env) (request : Request) (text : js_string) (w : World) :
  model_answers env request text → fst (POST env request w) = respond text.
Proof.
  intros (formData & videoFile & upload & inlineImages
          & Hkey & Hform & Hvideo & Hwrite & Hup & Himg & Hgen).
  rewrite (POST_after_write _ _ _ _ _ Hkey Hform Hvideo Hwrite), Hup, Himg.
  cbv zeta. by rewrite Hgen.
Qed.

(** The copy of the video is made before the [try]: when the stream
    breaks, the handler ends with the exception and attempts no removal. *)
Lemma no_removal_when_copy_breaks (env : Env) (request : Request) (w : World)
    (formData : FormData.t) (videoFile : File.t) :
  falsy (GEMINI_API_KEY env) = false →
  form request = Some formData →
  FormData.get formData (str "video") = Some (EntryFile videoFile) →
  pipeline env videoFile (tempPathOf (randomUUID env) videoFile) = StreamFailed →
  POST env request w =
    (Throw (IOError (tempPathOf (randomUUID env) videoFile)),
     {| files := {[tempPathOf (randomUUID env) videoFile]} ∪ files w;
        trace := trace w ++ [EvWrite (tempPathOf (randomUUID env) videoFile)] |}).
Proof.
  intros Hkey Hform Hvideo Hwrite.
  unfold POST. rewrite Hkey.
  unfold mbind, M_bind at 1. unfold lift at 1. rewrite Hform. cbn [from_option].
  rewrite Hvideo. unfold toTempFile. rewrite Hwrite. reflexivity.
Qed.

Lemma sample_model_answers (answer : js_string) :
  model_answers (sample_env answer) sample_request answer.
Proof.
  exists sample_form, sample_video, sample_upload, [].
  repeat split; reflexivity.
Qed.

(** ** Sanitisation *)

Lemma slice_from_0 (n : nat) (a : list json) : slice 0 n a = take n a.
Proof. unfold slice. by rewrite Nat.sub_0_r, drop_0. Qed.

Lemma get_field (payload : json) (k : js_string) :
  payload ≠ JNull → get payload k = Ok (field payload k).
Proof. by destruct payload. Qed.

Lemma array_or_empty_take (v : option json) (n : nat) :
  array_or_empty v n = JArray (take n (elements v)).
Proof.
  destruct v as [[]|]; simpl; rewrite ?slice_from_0, ?take_nil; done.
Qed.

Lemma safePayload_not_null (payload : json) :
  payload ≠ JNull →
  safePayload payload =
    Ok (JObject [ (str "titles", array_or_empty (field payload (str "titles")) 5);
                  (str "description", string_or_empty (field payload (str "description")));
                  (str "tags", array_or_empty (field payload (str "tags")) 30);
                  (str "thumbnails", array_or_empty (field payload (str "thumbnails")) 3) ]).
Proof.
  intros Hp. unfold safePayload. rewrite !get_field by done. reflexivity.
Qed.

Lemma safePayload_null : safePayload JNull = Throw (TypeError "Cannot read properties of null").
Proof. reflexivity. Qed.

Lemma string_or_empty_is_string (v : option json) :
  ∃ s, string_or_empty v = JString s.
Proof. destruct v as [[]|]; simpl; eauto. Qed.

Lemma respond_parsed (text : js_string) (payload : json) :
  parseJsonResponse text = Ok payload →
  respond text = safePayload payload ≫= λ safe, Ok (NextResponse_json safe 200).
Proof. intros H. unfold respond. rewrite H. reflexivity. Qed.

Lemma object_fields (a b c d : json) :
  let o := JObject [(str "titles", a); (str "description", b);
                    (str "tags", c); (str "thumbnails", d)] in
  field o (str "titles") = Some a ∧ field o (str "description") = Some b
  ∧ field o (str "tags") = Some c ∧ field o (str "thumbnails") = Some d.
Proof. repeat split; reflexivity. Qed.

Lemma array_or_empty_twice (v : option json) (n : nat) :
  array_or_empty (Some (array_or_empty v n)) n = array_or_empty v n.
Proof.
  rewrite (array_or_empty_take v). simpl.
  by rewrite slice_from_0, take_take, Nat.min_id.
Qed.

Lemma string_or_empty_twice (v : option json) :
  string_or_empty (Some (string_or_empty v)) = string_or_empty v.
Proof. by destruct v as [[]|]. Qed.

(** A field that is not a sequence, or not a string, takes its empty
    default, be it absent or of another type; this needs a payload whose
    fields can be read. *)
Lemma defaults_when_not_null (payload : json) :
  payload ≠ JNull →
  ∃ t d g h,
    safePayload payload =
      Ok (JObject [(str "titles", t); (str "description", d);
                   (str "tags", g); (str "thumbnails", h)])
    ∧ (is_array (field payload (str "titles")) = false → t = JArray [])
    ∧ (is_array (field payload (str "tags")) = false → g = JArray [])
    ∧ (is_array (field payload (str "thumbnails")) = false → h = JArray [])
    ∧ ((∀ s, field payload (str "description") ≠ Some (JString s)) → d = JString []).
Proof.
  intros Hp. do 4 eexists. split; [by apply safePayload_not_null|].
  repeat split.
  - by destruct (field payload (str "titles")) as [[]|].
  - by destruct (field payload (str "tags")) as [[]|].
  - by destruct (field payload (str "thumbnails")) as [[]|].
  - intros H. destruct (field payload (str "description")) as [[]|]; try done.
    by edestruct H.
Qed.

Lemma take_spec_truncate (cap : nat) (l : list json) : take cap l = spec_truncate cap l.
Proof.
  unfold spec_truncate. destruct (Nat.leb_spec (length l) cap); [|done].
  by apply take_ge.
Qed.

(** C1, as amended.  For every payload parsed from the model's answer
    other than [null], the handler answers 200 with a body that has the
    four fields: [titles], [tags] and [thumbnails] are sequences, each a
    prefix of at most 5, 30 and 3 elements of the payload's field of that
    name (so its elements are strings whenever the model's are; their type
    is not checked), and [description] is a string. *)
Theorem sanitized_result_well_formed (text : js_string) (payload : json) :
  parseJsonResponse text = Ok payload →
  payload ≠ JNull →
  ∃ titles description tags thumbnails,
    respond text =
      Ok (NextResponse_json
            (JObject [(str "titles", JArray titles);
                      (str "description", JString description);
                      (str "tags", JArray tags);
                      (str "thumbnails", JArray thumbnails)]) 200)
    ∧ (∀ env request w,
         model_answers env request text →
         fst (POST env request w) = respond text)
    ∧ titles = take 5 (elements (field payload (str "titles")))
    ∧ description = text_of (field payload (str "description"))
    ∧ tags = take 30 (elements (field payload (str "tags")))
    ∧ thumbnails = take 3 (elements (field payload (str "thumbnails")))
    ∧ (length titles ≤ 5 ∧ length tags ≤ 30 ∧ length thumbnails ≤ 3)%nat.
Proof.
  intros Hparse Hp.
  assert (string_or_empty (field payload (str "description"))
          = JString (text_of (field payload (str "description")))) as Hd
    by (by destruct (field payload (str "description")) as [[]|]).
  exists (take 5 (elements (field payload (str "titles")))),
         (text_of (field payload (str "description"))),
         (take 30 (elements (field payload (str "tags")))),
         (take 3 (elements (field payload (str "thumbnails")))).
  split.
  - rewrite (respond_parsed _ _ Hparse), safePayload_not_null by done.
    rewrite !array_or_empty_take, Hd. reflexivity.
  - split; [intros env request w Hm; by apply POST_model_answers|].
    rewrite !length_take. repeat split; lia.
Qed.

Lemma sanitized_result_well_formed_witness :
  ∃ titles description tags thumbnails,
    respond (qstr "Sure! {'titles':['A','B'],'description':7,'tags':'x'}") =
      Ok (NextResponse_json
            (JObject [(str "titles", JArray titles);
                      (str "description", JString description);
                      (str "tags", JArray tags);
                      (str "thumbnails", JArray thumbnails)]) 200)
    ∧ (∀ env request w,
         model_answers env request
           (qstr "Sure! {'titles':['A','B'],'description':7,'tags':'x'}") →
         fst (POST env request w)
           = respond (qstr "Sure! {'titles':['A','B'],'description':7,'tags':'x'}"))
    ∧ titles = [JString (str "A"); JString (str "B")]
    ∧ description = []
    ∧ tags = []
    ∧ thumbnails = []
    ∧ (length titles ≤ 5 ∧ length tags ≤ 30 ∧ length thumbnails ≤ 3)%nat.
Proof.
  apply (sanitized_result_well_formed
           (qstr "Sure! {'titles':['A','B'],'description':7,'tags':'x'}")
           (JObject [(str "titles", JArray [JString (str "A"); JString (str "B")]);
                     (str "description", JNumber (str "7"));
                     (str "tags", JString (str "x"))])).
  - vm_compute. reflexivity.
  - discriminate.
Defined.

(** C1, as stated, fails: a sequence of numbers is a sequence, so it is
    passed on, and the body handed to the client has elements that are not
    strings. *)
Lemma non_string_elements_pass_through :
  parseJsonResponse (qstr "{'titles':[1,2],'description':'d','tags':[],'thumbnails':[]}")
    = Ok (JObject [(str "titles", JArray [JNumber (str "1"); JNumber (str "2")]);
                   (str "description", JString (str "d"));
                   (str "tags", JArray []);
                   (str "thumbnails", JArray [])])
  ∧ respond (qstr "{'titles':[1,2],'description':'d','tags':[],'thumbnails':[]}")
    = Ok (NextResponse_json
            (JObject [(str "titles", JArray [JNumber (str "1"); JNumber (str "2")]);
                      (str "description", JString (str "d"));
                      (str "tags", JArray []);
                      (str "thumbnails", JArray [])]) 200)
  ∧ fst (POST (sample_env (qstr "{'titles':[1,2],'description':'d','tags':[],'thumbnails':[]}"))
              sample_request empty_world)
    = Ok (NextResponse_json
            (JObject [(str "titles", JArray [JNumber (str "1"); JNumber (str "2")]);
                      (str "description", JString (str "d"));
                      (str "tags", JArray []);
                      (str "thumbnails", JArray [])]) 200)
  ∧ well_typed (JObject [(str "titles", JArray [JNumber (str "1"); JNumber (str "2")]);
                         (str "description", JString (str "d"));
                         (str "tags", JArray []);
                         (str "thumbnails", JArray [])]) = false.
Proof. repeat split; vm_compute; reflexivity. Qed.

(** C2.  On a payload whose [titles], [tags] and [thumbnails] are
    sequences and whose [description] is a string, sanitisation returns
    the same four fields, each sequence unchanged when within its cap
    (5, 30, 3) and cut to its first 5, 30 or 3 elements otherwise, and the
    description unchanged. *)
Theorem sanitization_identity_up_to_truncation
    (payload : json) (titles tags thumbnails : list json) (description : js_string) :
  get payload (str "titles") = Ok (Some (JArray titles)) →
  get payload (str "description") = Ok (Some (JString description)) →
  get payload (str "tags") = Ok (Some (JArray tags)) →
  get payload (str "thumbnails") = Ok (Some (JArray thumbnails)) →
  safePayload payload =
    Ok (JObject [(str "titles", JArray (spec_truncate 5 titles));
                 (str "description", JString description);
                 (str "tags", JArray (spec_truncate 30 tags));
                 (str "thumbnails", JArray (spec_truncate 3 thumbnails))]).
Proof.
  intros Ht Hd Hg Hh. unfold safePayload. rewrite Ht, Hd, Hg, Hh. simpl.
  by rewrite !slice_from_0, !take_spec_truncate.
Qed.

Lemma sanitization_identity_up_to_truncation_witness :
  safePayload (JObject [(str "titles", JArray (sample_strings 8));
                        (str "description", JString (str "d"));
                        (str "tags", JArray (sample_strings 40));
                        (str "thumbnails", JArray (sample_strings 5))]) =
    Ok (JObject [(str "titles", JArray (spec_truncate 5 (sample_strings 8)));
                 (str "description", JString (str "d"));
                 (str "tags", JArray (spec_truncate 30 (sample_strings 40)));
                 (str "thumbnails", JArray (spec_truncate 3 (sample_strings 5)))]).
Proof.
  apply sanitization_identity_up_to_truncation; reflexivity.
Defined.

(** The sample of the spec: 8 titles, 40 tags and 5 thumbnails leave 5,
    30 and 3, the leading ones, in order. *)
Lemma truncation_sample :
  spec_truncate 5 (sample_strings 8) = sample_strings 5
  ∧ spec_truncate 30 (sample_strings 40) = sample_strings 30
  ∧ spec_truncate 3 (sample_strings 5) = sample_strings 3.
Proof. repeat split; vm_compute; reflexivity. Qed.

(** C3 at the answer [null].  [JSON.parse] accepts the text, reading the
    first field of [null] throws, and the handler ends with that
    exception: no field is replaced by a default. *)
Theorem null_payload_is_not_sanitized :
  parseJsonResponse (str "null") = Ok JNull
  ∧ safePayload JNull = Throw (TypeError "Cannot read properties of null")
  ∧ respond (str "null") = Throw (TypeError "Cannot read properties of null")
  ∧ fst (POST (sample_env (str "null")) sample_request empty_world)
    = Throw (TypeError "Cannot read properties of null").
Proof. repeat split; vm_compute; reflexivity. Qed.

(** C10.  Sanitising the sanitised payload changes nothing; on [null]
    both sides are the same exception. *)
Theorem safePayload_idempotent (payload : json) :
  (safePayload payload ≫= safePayload) = safePayload payload.
Proof.
  assert (payload = JNull ∨ payload ≠ JNull) as [->|Hp]
    by (destruct payload; auto); [reflexivity|].
  rewrite safePayload_not_null by done. simpl.
  rewrite safePayload_not_null by done.
  match goal with
  | |- context [field (JObject [(_, ?a); (_, ?b); (_, ?c); (_, ?d)])] =>
      destruct (object_fields a b c d) as (-> & -> & -> & ->)
  end.
  by rewrite !array_or_empty_twice, string_or_empty_twice.
Qed.

(** ** The fallback pattern *)

Lemma any_char_true (c : N) : any_char c = true.
Proof. unfold any_char. apply orb_negb_r. Qed.

Lemma upto_last_brace_cons (c : N) (r : js_string) :
  upto_last_brace (c :: r) =
    match upto_last_brace r with
    | Some m => Some (c :: m)
    | None => if ch "}" =? c then Some [c] else None
    end.
Proof.
  unfold upto_last_brace. simpl. rewrite any_char_true.
  destruct (_ r); [done|]. by destruct (ch "}" =? c).
Qed.

Lemma match_here_braces_cons (c : N) (r : js_string) :
  match_here braces_re (c :: r) =
    if ch "{" =? c then option_map (cons c) (upto_last_brace r) else None.
Proof. reflexivity. Qed.

Lemma drop_until_snoc (c x : N) (l : js_string) :
  drop_until c (l ++ [x]) =
    match drop_until c l with
    | [] => if x =? c then [x] else []
    | d => d ++ [x]
    end.
Proof.
  induction l as [|y l IH]; simpl; [done|].
  destruct (y =? c); [done|]. apply IH.
Qed.

Lemma upto_last_brace_spec (r : js_string) :
  upto_last_brace r =
    match rev (drop_until (ch "}") (rev r)) with
    | [] => None
    | body => Some body
    end.
Proof.
  induction r as [|c r IH]; [reflexivity|].
  rewrite upto_last_brace_cons, IH. cbn [rev]. rewrite drop_until_snoc.
  destruct (drop_until (ch "}") (rev r)) as [|y d] eqn:Hd.
  - cbn [rev]. rewrite (N.eqb_sym c). by destruct (ch "}" =? c).
  - rewrite rev_app_distr. cbn [rev app].
    destruct (rev d ++ [y]) eqn:Hr; [|done].
    by apply app_eq_nil in Hr as [_ ?].
Qed.

Lemma regex_match_cons (re : list atom) (c : N) (r : js_string) :
  regex_match re (c :: r) =
    match match_here re (c :: r) with
    | Some m => Some m
    | None => regex_match re r
    end.
Proof. reflexivity. Qed.

Lemma no_brace_no_match (r : js_string) :
  upto_last_brace r = None → regex_match braces_re r = None.
Proof.
  induction r as [|c r IH]; [reflexivity|].
  rewrite upto_last_brace_cons.
  destruct (upto_last_brace r) eqn:Hr; [done|]. intros _.
  rewrite regex_match_cons, match_here_braces_cons, Hr.
  destruct (ch "{" =? c); by apply IH.
Qed.

(** The match of the pattern is the substring the spec describes. *)
Lemma regex_match_braces (text : js_string) :
  regex_match braces_re text = spec_first_brace_delimited text.
Proof.
  unfold spec_first_brace_delimited.
  induction text as [|c r IH]; [reflexivity|].
  rewrite regex_match_cons, match_here_braces_cons. cbn [drop_until].
  rewrite (N.eqb_sym c). destruct (ch "{" =? c).
  - pose proof (upto_last_brace_spec r) as Hs.
    destruct (upto_last_brace r) eqn:Hr;
      destruct (rev (drop_until (ch "}") (rev r))); simplify_eq; [done|].
    by apply no_brace_no_match.
  - apply IH.
Qed.

(** What the matched substring looks like inside the text: it starts at
    the first opening brace and ends at the last closing brace. *)
Lemma drop_until_split (c : N) (s : js_string) :
  ∃ pre, s = pre ++ drop_until c s ∧ forallb (λ x, negb (x =? c)) pre = true.
Proof.
  induction s as [|x r (pre & Hs & Hpre)]; [by exists []|].
  simpl. destruct (x =? c) eqn:Hx; [by exists []|].
  exists (x :: pre). simpl. rewrite Hx, Hpre. split; [by f_equal|done].
Qed.

Lemma spec_first_brace_delimited_shape (text m : js_string) :
  spec_first_brace_delimited text = Some m →
  ∃ pre inner post,
    text = pre ++ m ++ post
    ∧ m = ch "{" :: inner ++ [ch "}"]
    ∧ forallb (λ x, negb (x =? ch "{")) pre = true
    ∧ forallb (λ x, negb (x =? ch "}")) post = true.
Proof.
  unfold spec_first_brace_delimited.
  destruct (drop_until_split (ch "{") text) as (pre & Htext & Hpre).
  destruct (drop_until (ch "{") text) as [|o r] eqn:Ho; [done|].
  assert (o = ch "{") as ->.
  { clear -Ho. induction text as [|x t IH]; [done|]. simpl in Ho.
    destruct (x =? ch "{") eqn:Hx; [|by apply IH].
    injection Ho as -> _. by apply N.eqb_eq. }
  destruct (drop_until_split (ch "}") (rev r)) as (post & Hr & Hpost).
  destruct (drop_until (ch "}") (rev r)) as [|c d] eqn:Hd; [done|].
  assert (c = ch "}") as ->.
  { clear -Hd. induction (rev r) as [|x t IH]; [done|]. simpl in Hd.
    destruct (x =? ch "}") eqn:Hx; [|by apply IH].
    injection Hd as -> _. by apply N.eqb_eq. }
  destruct (rev (ch "}" :: d)) as [|b body] eqn:Hb.
  { apply (f_equal (@length N)) in Hb. by rewrite length_rev in Hb. }
  intros [= <-]. exists pre, (rev d), (rev post).
  apply (f_equal (@rev N)) in Hr. rewrite rev_involutive, rev_app_distr in Hr.
  simpl in Hr, Hb. rewrite Hb in Hr.
  split; [|split; [|split]].
  - by rewrite Htext, Hr.
  - by rewrite <- Hb.
  - done.
  - rewrite forallb_forall in *. intros x Hx. apply Hpost. by apply in_rev.
Qed.

(** C4.  The parser tries a strict parse of the whole text first; if and
    only if that fails it parses the first brace-delimited substring (from
    the first opening brace to the last closing brace).  On the sample
    answer wrapped in prose the strict parse fails and the embedded object
    is returned. *)
Theorem parseJsonResponse_strict_then_first_braces :
  (∀ text,
     parseJsonResponse text =
       match JSON.parse text with
       | Ok payload => Ok payload
       | Throw error =>
           match spec_first_brace_delimited text with
           | Some m => JSON.parse m
           | None => Throw error
           end
       end)
  ∧ JSON.parse fallback_sample = Throw (SyntaxError fallback_sample)
  ∧ spec_first_brace_delimited fallback_sample
    = Some (qstr "{'titles':['A'],'description':'d','tags':[],'thumbnails':[]}")
  ∧ parseJsonResponse fallback_sample
    = Ok (JObject [(str "titles", JArray [JString (str "A")]);
                   (str "description", JString (str "d"));
                   (str "tags", JArray []);
                   (str "thumbnails", JArray [])]).
Proof.
  split; [|repeat split; vm_compute; reflexivity].
  intros text. unfold parseJsonResponse. by rewrite regex_match_braces.
Qed.

(** The extent of the match matters when the text holds two objects: the
    substring runs to the last closing brace and is not JSON. *)
Lemma two_objects_do_not_parse :
  spec_first_brace_delimited (qstr "{'a':1} and {'b':2}.")
    = Some (qstr "{'a':1} and {'b':2}")
  ∧ parseJsonResponse (qstr "{'a':1} and {'b':2}.")
    = Throw (SyntaxError (qstr "{'a':1} and {'b':2}")).
Proof. split; vm_compute; reflexivity. Qed.

Lemma parseJsonResponse_throws (text : js_string) :
  both_parses_fail text →
  parseJsonResponse text =
    Throw (SyntaxError (default text (regex_match braces_re text))).
Proof.
  intros [[e He] Hm]. unfold parseJsonResponse. rewrite He.
  assert (∀ t e', JSON.parse t = Throw e' → e' = SyntaxError t) as Hsyn.
  { intros t e'. unfold JSON.parse.
    destruct (JSON.lex _ _); [destruct (JSON.parse_tokens _ _ _)|]; congruence. }
  destruct (regex_match braces_re text) as [m|]; simpl.
  - destruct Hm as [e' He']. rewrite He'. f_equal. by eapply Hsyn.
  - f_equal. by eapply Hsyn.
Qed.

(** C5.  When the strict parse and the parse of the brace-delimited
    substring both fail (or there is no such substring), the parser
    throws, the handler ends with that exception instead of a sanitised
    payload, and the client is served the generic 500. *)
Theorem parse_failure_is_processing_failure (text : js_string) :
  both_parses_fail text →
  parseJsonResponse text = Throw (SyntaxError (default text (regex_match braces_re text)))
  ∧ ∀ env request w,
      model_answers env request text →
      fst (POST env request w)
        = Throw (SyntaxError (default text (regex_match braces_re text)))
      ∧ served_status (fst (POST env request w)) = 500.
Proof.
  intros Hfail. pose proof (parseJsonResponse_throws text Hfail) as Hparse.
  split; [done|]. intros env request w Hm.
  rewrite (POST_model_answers _ _ _ _ Hm). unfold respond. by rewrite Hparse.
Qed.

Lemma parse_failure_is_processing_failure_witness :
  parseJsonResponse (str "I cannot help with that.")
    = Throw (SyntaxError (str "I cannot help with that."))
  ∧ fst (POST (sample_env (str "I cannot help with that.")) sample_request empty_world)
    = Throw (SyntaxError (str "I cannot help with that."))
  ∧ served_status
      (fst (POST (sample_env (str "I cannot help with that.")) sample_request empty_world))
    = 500.
Proof.
  assert (both_parses_fail (str "I cannot help with that.")) as Hfail.
  { split; [eexists; vm_compute; reflexivity | vm_compute; exact I]. }
  destruct (parse_failure_is_processing_failure _ Hfail) as [Hparse Hpost].
  split; [exact Hparse|].
  exact (Hpost _ _ empty_world (sample_model_answers _)).
Defined.

(** C6.  Without a credential the handler answers 500 with the
    configuration error at once: the world is the one it started in, so no
    file was written and no vendor call was made, whatever the request. *)
Theorem missing_credential_reported_first (env : Env) (request : Request) (w : World) :
  falsy (GEMINI_API_KEY env) = true →
  POST env request w =
    (Ok (NextResponse_json
           (error_body "Missing GEMINI_API_KEY environment variable.") 500), w)
  ∧ trace (snd (POST env request w)) = trace w
  ∧ files (snd (POST env request w)) = files w.
Proof. intros Hkey. unfold POST. rewrite Hkey. done. Qed.

Lemma missing_credential_reported_first_witness :
  POST (without_credential (sample_env [])) sample_request empty_world =
    (Ok (NextResponse_json
           (error_body "Missing GEMINI_API_KEY environment variable.") 500), empty_world)
  ∧ trace (snd (POST (without_credential (sample_env [])) sample_request empty_world)) = []
  ∧ files (snd (POST (without_credential (sample_env [])) sample_request empty_world)) = ∅.
Proof.
  apply (missing_credential_reported_first
           (without_credential (sample_env [])) sample_request empty_world).
  reflexivity.
Defined.

(** C7.  With the credential configured, a form without a [video] entry,
    or whose [video] entry is not a file, is answered 400; the world is the
    one the handler started in: no temporary file, no vendor call. *)
Theorem missing_video_is_client_error
    (env : Env) (request : Request) (w : World) (formData : FormData.t) :
  falsy (GEMINI_API_KEY env) = false →
  form request = Some formData →
  (∀ file, FormData.get formData (str "video") ≠ Some (EntryFile file)) →
  POST env request w =
    (Ok (NextResponse_json (error_body "Video file is required.") 400), w)
  ∧ trace (snd (POST env request w)) = trace w
  ∧ files (snd (POST env request w)) = files w.
Proof.
  intros Hkey Hform Hvideo. unfold POST. rewrite Hkey.
  unfold mbind, M_bind, lift. rewrite Hform. cbn [from_option].
  destruct (FormData.get formData (str "video")) as [[s|file]|]; try done.
  by destruct (Hvideo file).
Qed.

Lemma missing_video_is_client_error_witness :
  POST (sample_env []) {| form := Some [(str "video", EntryString (str "clip.mp4"))] |}
       empty_world =
    (Ok (NextResponse_json (error_body "Video file is required.") 400), empty_world)
  ∧ trace (snd (POST (sample_env [])
                     {| form := Some [(str "video", EntryString (str "clip.mp4"))] |}
                     empty_world)) = []
  ∧ files (snd (POST (sample_env [])
                     {| form := Some [(str "video", EntryString (str "clip.mp4"))] |}
                     empty_world)) = ∅.
Proof.
  apply (missing_video_is_client_error (sample_env [])
           {| form := Some [(str "video", EntryString (str "clip.mp4"))] |} empty_world
           [(str "video", EntryString (str "clip.mp4"))]).
  - reflexivity.
  - reflexivity.
  - intros file. vm_compute. discriminate.
Defined.

(** C8, as amended.  When the handler has written the video to its
    temporary file, the removal of that file is attempted right after the
    upload call, whether the call succeeded or failed; whether the removal
    succeeds never changes the handler's outcome; and when it succeeds no
    file of the request's generated name remains. *)
Theorem temp_file_removal_attempted
    (env : Env) (request : Request) (w : World) (videoFile : File.t) :
  writes_temp_file env request videoFile →
  (∃ later,
     trace (snd (POST env request w)) =
       trace w ++
       [EvWrite (tempPathOf (randomUUID env) videoFile);
        EvUpload (tempPathOf (randomUUID env) videoFile)
                 (videoMimeType videoFile) (videoDisplayName videoFile);
        EvUnlink (tempPathOf (randomUUID env) videoFile)] ++ later)
  ∧ (∀ u, fst (POST (with_unlink env u) request w) = fst (POST env request w))
  ∧ (unlink_succeeds env (tempPathOf (randomUUID env) videoFile) = true →
     tempPathOf (randomUUID env) videoFile ∉ files (snd (POST env request w))).
Proof.
  intros (Hkey & (formData & Hform & Hvideo) & Hwrite).
  split; [|split].
  - rewrite (POST_after_write _ _ _ _ _ Hkey Hform Hvideo Hwrite).
    destruct (uploadFile env _ _ _) as [upload|e]; [|by exists []; rewrite app_nil_r].
    destruct (Promise_all _ _) as [inlineImages|e]; [|by exists []; rewrite app_nil_r].
    cbv zeta. exists [EvGenerate (contents formData upload inlineImages)].
    destruct (generateContent env _); unfold after_generate, after_upload;
      cbn [snd trace]; by rewrite <- app_assoc.
  - intros u.
    rewrite (POST_after_write _ _ _ _ _ Hkey Hform Hvideo Hwrite).
    rewrite (POST_after_write (with_unlink env u) _ _ _ _ Hkey Hform Hvideo Hwrite).
    cbn [with_unlink uploadFile randomUUID generateContent].
    destruct (uploadFile env _ _ _) as [upload|e]; [|done].
    destruct (Promise_all _ _) as [inlineImages|e]; [|done].
    cbv zeta. by destruct (generateContent env _).
  - intros Hu.
    rewrite (POST_after_write _ _ _ _ _ Hkey Hform Hvideo Hwrite).
    assert (tempPathOf (randomUUID env) videoFile ∉ files (after_upload env videoFile w))
      as Hgone
      by (unfold after_upload; cbn [files]; rewrite Hu, elem_of_difference,
            elem_of_singleton; tauto).
    destruct (uploadFile env _ _ _) as [upload|e]; [|done].
    destruct (Promise_all _ _) as [inlineImages|e]; [|done].
    cbv zeta. by destruct (generateContent env _).
Qed.

Lemma temp_file_removal_attempted_witness :
  (∃ later,
     trace (snd (POST (with_uploadFile (sample_env []) (λ _ _ _, Throw (VendorError "upload")))
                      sample_request empty_world)) =
       [] ++
       [EvWrite (str "/tmp/yt-helper-3f0c-my_clip.mp4");
        EvUpload (str "/tmp/yt-helper-3f0c-my_clip.mp4") (str "video/mp4") (str "my clip.mp4");
        EvUnlink (str "/tmp/yt-helper-3f0c-my_clip.mp4")] ++ later)
  ∧ (∀ u,
       fst (POST (with_unlink
                    (with_uploadFile (sample_env []) (λ _ _ _, Throw (VendorError "upload"))) u)
                 sample_request empty_world)
       = fst (POST (with_uploadFile (sample_env []) (λ _ _ _, Throw (VendorError "upload")))
                   sample_request empty_world))
  ∧ (true = true →
     str "/tmp/yt-helper-3f0c-my_clip.mp4"
       ∉ files (snd (POST (with_uploadFile (sample_env [])
                                           (λ _ _ _, Throw (VendorError "upload")))
                          sample_request empty_world))).
Proof.
  apply (temp_file_removal_attempted
           (with_uploadFile (sample_env []) (λ _ _ _, Throw (VendorError "upload")))
           sample_request empty_world sample_video).
  split; [reflexivity|]. split; [|reflexivity].
  exists sample_form. split; reflexivity.
Defined.

(** C8, as stated, fails: when the system refuses the removal, the
    failure is swallowed, the handler answers 200, and the file of the
    request's generated name is still in the scratch directory. *)
Lemma temp_file_left_when_removal_fails :
  writes_temp_file (with_unlink (sample_env (qstr "{'titles':['A']}")) (λ _, false))
                   sample_request sample_video
  ∧ served_status
      (fst (POST (with_unlink (sample_env (qstr "{'titles':['A']}")) (λ _, false))
                 sample_request empty_world)) = 200
  ∧ str "/tmp/yt-helper-3f0c-my_clip.mp4"
      ∈ files (snd (POST (with_unlink (sample_env (qstr "{'titles':['A']}")) (λ _, false))
                         sample_request empty_world)).
Proof.
  split; [|split].
  - split; [reflexivity|]. split; [|reflexivity].
    exists sample_form. split; reflexivity.
  - vm_compute. reflexivity.
  - apply (bool_decide_unpack _). vm_compute. exact I.
Qed.

(** ** The prompt *)

Lemma trimStart_app (a b : js_string) :
  trimStart a ≠ [] → trimStart (a ++ b) = trimStart a ++ b.
Proof.
  induction a as [|c a IH]; [done|]. simpl.
  destruct (is_js_space c); [apply IH|done].
Qed.

Lemma trimEnd_app (a b : js_string) :
  trimEnd b ≠ [] → trimEnd (a ++ b) = a ++ trimEnd b.
Proof.
  intros Hb. induction a as [|c a IH]; [done|]. simpl. rewrite IH.
  destruct (a ++ trimEnd b) eqn:Hab; [|done].
  by apply app_eq_nil in Hab as [_ ?].
Qed.

Lemma trimStart_nil (s : js_string) :
  trimStart s = [] ↔ forallb is_js_space s = true.
Proof.
  induction s as [|c s IH]; [done|]. simpl.
  destruct (is_js_space c); [apply IH|done].
Qed.

Lemma trimStart_no_leading_space (s : js_string) :
  forallb is_js_space (trimStart s) = true → trimStart s = [].
Proof.
  induction s as [|c s IH]; [done|]. simpl.
  destruct (is_js_space c) eqn:Hc; [apply IH|]. simpl. by rewrite Hc.
Qed.

Lemma trimEnd_nil (s : js_string) :
  trimEnd s = [] ↔ forallb is_js_space s = true.
Proof.
  induction s as [|c s IH]; [done|]. simpl.
  destruct (trimEnd s) eqn:Hs.
  - destruct (is_js_space c); simpl; [tauto|split; done].
  - rewrite andb_true_iff. split; [done|]. intros [_ H]. by apply IH in H.
Qed.

Lemma trim_nil (s : js_string) :
  trim s = [] ↔ forallb is_js_space s = true.
Proof.
  unfold trim. rewrite trimEnd_nil. split.
  - intros H. by apply trimStart_nil, trimStart_no_leading_space.
  - intros H. apply trimStart_nil in H. by rewrite H.
Qed.

Lemma prompt_text (context : js_string) :
  prompt context = instructions ++ or_else context placeholder ++ closing.
Proof.
  unfold prompt, trim, instructions, closing.
  rewrite trimStart_app by (vm_compute; discriminate).
  rewrite app_assoc, trimEnd_app by (vm_compute; discriminate).
  by rewrite <- app_assoc.
Qed.

(** The fixed text, as the model reads it. *)
Lemma fixed_text :
  instructions = str "You are a YouTube growth strategist. Analyze the video content and return a JSON object with:
- titles: 5 high-CTR YouTube title suggestions.
- description: an SEO-optimized description with timestamps (use mm:ss format and realistic chapter labels).
- tags: 30 relevant tags, lower case, no hashtags.
- thumbnails: 3 detailed thumbnail concept descriptions (text only, no image generation).

Additional context from creator: "
  ∧ closing = str "

Return only valid JSON with keys: titles, description, tags, thumbnails.".
Proof. split; vm_compute; reflexivity. Qed.

(** C9, as amended.  The prompt is the fixed text with the context
    interpolated, where the context is the [context] entry of the form
    turned into text and trimmed: when that entry is absent, empty or made
    of white space only, the placeholder [None provided.] stands in its
    place; otherwise the trimmed text does. *)
Theorem prompt_interpolates_trimmed_context (formData : FormData.t) :
  prompt (context formData) =
    instructions
    ++ (if forallb is_js_space (supplied_context formData)
        then placeholder
        else trim (supplied_context formData))
    ++ closing.
Proof.
  rewrite prompt_text. unfold context. do 2 f_equal.
  destruct (forallb is_js_space (supplied_context formData)) eqn:Hs.
  - apply trim_nil in Hs. by rewrite Hs.
  - destruct (trim (supplied_context formData)) eqn:Ht; [|done].
    apply trim_nil in Ht. congruence.
Qed.

(** C9, as stated, fails: a context of three spaces is supplied and is
    not empty, yet the prompt carries the placeholder and does not contain
    the supplied text. *)
Lemma blank_context_is_replaced :
  supplied_context [(str "context", EntryString (str "   "))] = str "   "
  ∧ prompt (context [(str "context", EntryString (str "   "))])
    = instructions ++ placeholder ++ closing
  ∧ includes (prompt (context [(str "context", EntryString (str "   "))])) (str "   ")
    = false
  ∧ prompt (context [(str "context", EntryString (str "   "))])
    ≠ spec_prompt (Some (str "   ")).
Proof. repeat split; vm_compute; (reflexivity || discriminate). Qed.

(** * Further properties of the handler *)

(** ** The temporary file name *)

Lemma replace_runs_chars (in_run : bool) (s : js_string) :
  forallb is_name_char (replace_runs in_run s) = true
  ∧ (length (replace_runs in_run s) ≤ length s)%nat.
Proof.
  revert in_run. induction s as [|c s IH]; intros in_run; [done|]. simpl.
  destruct (is_name_char c) eqn:Hc.
  - destruct (IH false) as [H1 H2]. simpl. rewrite Hc, H1. split; [done|lia].
  - destruct in_run; destruct (IH true) as [H1 H2]; simpl; rewrite ?H1;
      (split; [done|lia]).
Qed.

Lemma replace_runs_safe (in_run : bool) (s : js_string) :
  forallb is_name_char s = true → replace_runs in_run s = s.
Proof.
  revert in_run. induction s as [|c s IH]; intros in_run; [done|]. simpl.
  destruct (is_name_char c); [|done]. simpl. intros H. by rewrite IH.
Qed.

(** X1.  The sanitised name of the upload is made of letters, digits,
    underscore, dot and hyphen only, so it holds no path separator, and it
    is never longer than the name it comes from. *)
Theorem safeName_only_name_chars (file : File.t) :
  forallb is_name_char (safeName file) = true
  ∧ (ch "/" ∉ safeName file)
  ∧ (length (safeName file) ≤ length (File.name file))%nat.
Proof.
  destruct (replace_runs_chars false (File.name file)) as [H1 H2].
  split; [done|]. split; [|done].
  intros Hin. apply list_elem_of_In in Hin.
  rewrite forallb_forall in H1. by apply H1 in Hin.
Qed.

(** X2.  A name that is already made of those characters is kept as it
    is. *)
Theorem safeName_keeps_safe_names (file : File.t) :
  forallb is_name_char (File.name file) = true →
  safeName file = File.name file.
Proof. apply replace_runs_safe. Qed.

Lemma safeName_keeps_safe_names_witness :
  safeName {| File.name := str "clip-1.final_v2.mp4"; File.type := []; File.bytes := [] |}
  = str "clip-1.final_v2.mp4".
Proof.
  apply (safeName_keeps_safe_names
           {| File.name := str "clip-1.final_v2.mp4"; File.type := []; File.bytes := [] |}).
  reflexivity.
Defined.

(** X3.  With an identifier of hexadecimal digits and hyphens, the
    temporary path is [/tmp/] followed by one segment that starts with
    [yt-helper-] and holds no separator, whatever the name of the upload:
    the file is created in the scratch directory itself. *)
Theorem temp_path_directly_in_tmp (uuid : js_string) (file : File.t) :
  forallb is_name_char uuid = true →
  ∃ segment,
    tempPathOf uuid file = str "/tmp/" ++ segment
    ∧ starts_with (str "yt-helper-") segment = true
    ∧ forallb is_name_char segment = true
    ∧ (ch "/" ∉ segment).
Proof.
  intros Hu. exists (str "yt-helper-" ++ uuid ++ str "-" ++ safeName file).
  assert (forallb is_name_char (str "yt-helper-" ++ uuid ++ str "-" ++ safeName file) = true)
    as Hall.
  { destruct (replace_runs_chars false (File.name file)) as [Hs _].
    unfold safeName. rewrite !forallb_app, Hu, Hs. reflexivity. }
  split; [reflexivity|]. split; [reflexivity|]. split; [done|].
  intros Hin. apply list_elem_of_In in Hin.
  rewrite forallb_forall in Hall. by apply Hall in Hin.
Qed.

Lemma temp_path_directly_in_tmp_witness :
  ∃ segment,
    tempPathOf (str "3f0c-1a2b")
               {| File.name := str "../../etc/passwd"; File.type := []; File.bytes := [] |}
      = str "/tmp/" ++ segment
    ∧ starts_with (str "yt-helper-") segment = true
    ∧ forallb is_name_char segment = true
    ∧ (ch "/" ∉ segment).
Proof.
  apply (temp_path_directly_in_tmp (str "3f0c-1a2b")
           {| File.name := str "../../etc/passwd"; File.type := []; File.bytes := [] |}).
  reflexivity.
Defined.

(** ** The inline image parts *)

Lemma list_ind_by_3 (P : list N → Prop) :
  P [] → (∀ a, P [a]) → (∀ a b, P [a; b]) →
  (∀ a b c r, P r → P (a :: b :: c :: r)) →
  ∀ l, P l.
Proof.
  intros H0 H1 H2 H3 l.
  assert (P l ∧ (∀ a, P (a :: l)) ∧ (∀ a b, P (a :: b :: l))) as [H _];
    [|exact H].
  induction l as [|x l (IH0 & IH1 & IH2)]; [by auto|].
  split; [apply IH1|]. split; [intros a; apply IH2|].
  intros a b. by apply H3.
Qed.

Lemma base64_digit_char (i : N) : is_base64_char (base64_digit i) = true.
Proof.
  unfold base64_digit, is_base64_char, is_upper, is_lower, is_digit, in_range.
  change (ch "A") with 65; change (ch "Z") with 90; change (ch "a") with 97;
    change (ch "z") with 122; change (ch "0") with 48; change (ch "9") with 57;
    change (ch "+") with 43; change (ch "/") with 47; change (ch "=") with 61.
  destruct (N.ltb_spec i 26); [|destruct (N.ltb_spec i 52);
    [|destruct (N.ltb_spec i 62); [|destruct (i =? 62)]]];
    rewrite ?orb_true_iff, ?andb_true_iff, ?N.leb_le, ?N.eqb_eq; lia.
Qed.

Lemma base64_digit_value (i : N) :
  i < 64 → base64_value (base64_digit i) = i ∧ (base64_digit i =? ch "=") = false.
Proof.
  intros Hi.
  unfold base64_value, base64_digit, is_upper, is_lower, is_digit, in_range.
  change (ch "A") with 65; change (ch "Z") with 90; change (ch "a") with 97;
    change (ch "z") with 122; change (ch "0") with 48; change (ch "9") with 57;
    change (ch "+") with 43; change (ch "/") with 47; change (ch "=") with 61.
  destruct (N.ltb_spec i 26); [|destruct (N.ltb_spec i 52);
    [|destruct (N.ltb_spec i 62); [|destruct (N.eqb_spec i 62)]]];
    rewrite ?N.eqb_neq;
    repeat match goal with
           | |- context [?a <=? ?b] => destruct (N.leb_spec a b); cbn [andb]
           | |- context [?a =? ?b] => destruct (N.eqb_spec a b)
           end; lia.
Qed.

Ltac byte_arith := zify; Z.to_euclidean_division_equations; lia.

Lemma unbase64_base64 (bs : list N) :
  Forall is_byte bs → unbase64 (base64 bs) = bs.
Proof.
  unfold is_byte.
  induction bs as [|a|a b|a b c r IH] using list_ind_by_3; intros Hb.
  - reflexivity.
  - apply Forall_cons_1 in Hb as [Ha _]. cbn [base64 unbase64].
    destruct (base64_digit_value (a / 4)) as [-> _]; [byte_arith|].
    destruct (base64_digit_value (a mod 4 * 16)) as [-> _]; [byte_arith|].
    rewrite N.eqb_refl. f_equal. byte_arith.
  - apply Forall_cons_1 in Hb as [Ha Hb]. apply Forall_cons_1 in Hb as [Hb _].
    cbn [base64 unbase64].
    destruct (base64_digit_value (a / 4)) as [-> _]; [byte_arith|].
    destruct (base64_digit_value (a mod 4 * 16 + b / 16)) as [-> _]; [byte_arith|].
    destruct (base64_digit_value (b mod 16 * 4)) as [-> ->]; [byte_arith|].
    rewrite N.eqb_refl. f_equal; [byte_arith|]. f_equal. byte_arith.
  - apply Forall_cons_1 in Hb as [Ha Hb]. apply Forall_cons_1 in Hb as [Hb Hc].
    apply Forall_cons_1 in Hc as [Hc Hr].
    cbn [base64 unbase64].
    destruct (base64_digit_value (a / 4)) as [-> _]; [byte_arith|].
    destruct (base64_digit_value (a mod 4 * 16 + b / 16)) as [-> _]; [byte_arith|].
    destruct (base64_digit_value (b mod 16 * 4 + c / 64)) as [-> ->]; [byte_arith|].
    destruct (base64_digit_value (c mod 64)) as [-> ->]; [byte_arith|].
    rewrite IH by done. f_equal; [byte_arith|]. f_equal; [byte_arith|].
    f_equal. byte_arith.
Qed.

(** X4.  The base64 text of an image has four characters for every three
    bytes, the last group padded, and holds only characters of the base64
    alphabet. *)
Theorem base64_length_and_alphabet (bs : list N) :
  length (base64 bs) = (4 * ((length bs + 2) / 3))%nat
  ∧ forallb is_base64_char (base64 bs) = true.
Proof.
  induction bs as [|a|a b|a b c r [IHl IHa]] using list_ind_by_3.
  - done.
  - split; [reflexivity|]. cbn [base64 forallb]. by rewrite !base64_digit_char.
  - split; [reflexivity|]. cbn [base64 forallb]. by rewrite !base64_digit_char.
  - split.
    + cbn [base64 length]. rewrite IHl.
      replace (S (S (S (length r))) + 2)%nat with (length r + 2 + 1 * 3)%nat by lia.
      rewrite Nat.div_add by done. lia.
    + cbn [base64 forallb]. by rewrite !base64_digit_char, IHa.
Qed.

(** X5.  The encoding loses nothing: two images whose bytes differ have
    different base64 texts. *)
Theorem base64_injective (a b : list N) :
  Forall is_byte a → Forall is_byte b → base64 a = base64 b → a = b.
Proof.
  intros Ha Hb Heq.
  rewrite <- (unbase64_base64 a Ha), <- (unbase64_base64 b Hb). by rewrite Heq.
Qed.

Lemma base64_injective_witness : [255; 0; 128; 7] = [255; 0; 128; 7].
Proof.
  apply (base64_injective [255; 0; 128; 7] [255; 0; 128; 7]).
  - repeat constructor.
  - repeat constructor.
  - reflexivity.
Defined.

(** ** Every run of the handler *)


Lemma temp_path_prefix (uuid : js_string) (file : File.t) :
  starts_with (str "/tmp/yt-helper-") (tempPathOf uuid file) = true.
Proof. reflexivity. Qed.

Lemma starts_with_refl_eq (prefix s t : js_string) :
  starts_with prefix s = true → starts_with prefix t = false → s ≠ t.
Proof. congruence. Qed.

(** The ways a run can go: answered at once, the form unreadable, the
    copy failed with or without a partial file, or the copy made, the
    upload and the removal attempted and, possibly, the model called. *)
Lemma POST_cases (env : Env) (request : Request) (w : World) :
  POST env request w =
    (Ok (NextResponse_json
           (error_body "Missing GEMINI_API_KEY environment variable.") 500), w)
  ∨ POST env request w = (Throw BodyError, w)
  ∨ POST env request w =
      (Ok (NextResponse_json (error_body "Video file is required.") 400), w)
  ∨ ∃ videoFile,
      POST env request w =
        (Throw (IOError (tempPathOf (randomUUID env) videoFile)),
         {| files := files w;
            trace := trace w ++ [EvWrite (tempPathOf (randomUUID env) videoFile)] |})
      ∨ POST env request w =
          (Throw (IOError (tempPathOf (randomUUID env) videoFile)),
           {| files := {[tempPathOf (randomUUID env) videoFile]} ∪ files w;
              trace := trace w ++ [EvWrite (tempPathOf (randomUUID env) videoFile)] |})
      ∨ (∃ e, POST env request w = (Throw e, after_upload env videoFile w))
      ∨ ∃ parts,
          (∃ e, POST env request w = (Throw e, after_generate env videoFile parts w))
          ∨ ∃ text, POST env request w
                    = (respond text, after_generate env videoFile parts w).
Proof.
  destruct (falsy (GEMINI_API_KEY env)) eqn:Hkey.
  { left. unfold POST. by rewrite Hkey. }
  destruct (form request) as [formData|] eqn:Hform.
  2: { right; left. unfold POST. rewrite Hkey. unfold mbind, M_bind, lift.
       by rewrite Hform. }
  destruct (FormData.get formData (str "video")) as [[s|videoFile]|] eqn:Hvideo.
  1, 3: right; right; left; unfold POST; rewrite Hkey; unfold mbind, M_bind, lift;
        by rewrite Hform; cbn [from_option]; rewrite Hvideo.
  do 3 right. exists videoFile.
  destruct (pipeline env videoFile (tempPathOf (randomUUID env) videoFile)) eqn:Hwrite.
  - do 2 right.
    rewrite (POST_after_write _ _ _ _ _ Hkey Hform Hvideo Hwrite).
    destruct (uploadFile env _ _ _) as [upload|e]; [|by left; exists e].
    destruct (Promise_all _ _) as [inlineImages|e]; [|by left; exists e].
    right. exists (contents formData upload inlineImages). cbv zeta.
    destruct (generateContent env _) as [text|e]; [right; by exists text|left; by exists e].
  - left. unfold POST. rewrite Hkey.
    unfold mbind, M_bind at 1. unfold lift at 1. rewrite Hform. cbn [from_option].
    rewrite Hvideo. unfold toTempFile. by rewrite Hwrite.
  - right; left.
    by rewrite (no_removal_when_copy_breaks _ _ _ _ _ Hkey Hform Hvideo Hwrite).
Qed.

Lemma respond_ok (text : js_string) (response : Response) :
  respond text = Ok response → status response = 200 ∧ sanitized (body response).
Proof.
  unfold respond. destruct (parseJsonResponse text) as [payload|e]; [|done]. simpl.
  assert (payload = JNull ∨ payload ≠ JNull) as [->|Hp]
    by (destruct payload; auto); [done|].
  rewrite safePayload_not_null by done. simpl. intros [= <-]. split; [done|].
  destruct (string_or_empty_is_string (field payload (str "description"))) as [d Hd].
  exists (take 5 (elements (field payload (str "titles")))), d,
         (take 30 (elements (field payload (str "tags")))),
         (take 3 (elements (field payload (str "thumbnails")))).
  cbn [body NextResponse_json]. rewrite !array_or_empty_take, Hd, !length_take.
  split; [done|lia].
Qed.


(** X7.  A run creates or removes no file other than its own temporary
    file: a path that does not start with [/tmp/yt-helper-] is in the
    file system after the run exactly when it was before. *)
Theorem other_files_untouched (env : Env) (request : Request) (w : World)
    (path : js_string) :
  starts_with (str "/tmp/yt-helper-") path = false →
  path ∈ files (snd (POST env request w)) ↔ path ∈ files w.
Proof.
  intros Hpath.
  assert (∀ videoFile, tempPathOf (randomUUID env) videoFile ≠ path) as Hne
    by (intros videoFile; eapply starts_with_refl_eq;
        [apply temp_path_prefix|done]).
  destruct (POST_cases env request w)
    as [->|[->|[->|(videoFile & [->|[->|[[e ->]|(parts & [[e ->]|[text ->]])]]])]]];
    cbn [snd files after_generate after_upload]; try done;
    specialize (Hne videoFile);
    try destruct (unlink_succeeds env _);
    rewrite ?elem_of_difference, ?elem_of_union, ?elem_of_singleton;
    intuition congruence.
Qed.

Lemma other_files_untouched_witness :
  str "/etc/passwd"
    ∈ files (snd (POST (sample_env []) sample_request
                       {| files := {[str "/etc/passwd"]}; trace := [] |}))
  ↔ str "/etc/passwd" ∈ files {| files := {[str "/etc/passwd"]}; trace := [] |}.
Proof.
  apply (other_files_untouched (sample_env []) sample_request
           {| files := {[str "/etc/passwd"]}; trace := [] |} (str "/etc/passwd")).
  reflexivity.
Defined.

(** X8.  Every response the handler returns is one of three: 200 with a
    sanitised body (the four fields, sequences within 5, 30 and 3), 400
    with the message that the video is required, or 500 with the message
    that the credential is missing. *)
Theorem responses_of_the_handler
    (env : Env) (request : Request) (w : World) (response : Response) :
  fst (POST env request w) = Ok response →
  (status response = 200 ∧ sanitized (body response))
  ∨ (status response = 400
     ∧ error_message_of (body response) = Some (str "Video file is required."))
  ∨ (status response = 500
     ∧ error_message_of (body response)
       = Some (str "Missing GEMINI_API_KEY environment variable.")).
Proof.
  destruct (POST_cases env request w)
    as [->|[->|[->|(videoFile & [->|[->|[[e ->]|(parts & [[e ->]|[text ->]])]]])]]];
    cbn [fst]; try done.
  - intros [= <-]. right; right. done.
  - intros [= <-]. right; left. done.
  - intros H. left. by apply (respond_ok text).
Qed.

Lemma responses_of_the_handler_witness :
  (status sample_response = 200 ∧ sanitized (body sample_response))
  ∨ (status sample_response = 400
     ∧ error_message_of (body sample_response) = Some (str "Video file is required."))
  ∨ (status sample_response = 500
     ∧ error_message_of (body sample_response)
       = Some (str "Missing GEMINI_API_KEY environment variable.")).
Proof.
  apply (responses_of_the_handler (sample_env (qstr "{'titles':['A']}"))
           sample_request empty_world).
  vm_compute. reflexivity.
Defined.

(** ** Failures after the copy *)

Lemma Promise_all_string (s : js_string) (l : list FormDataEntryValue) :
  EntryString s ∈ l →
  Promise_all fileToInlinePart l = Throw (TypeError "file.arrayBuffer is not a function").
Proof.
  induction l as [|a l IH]; [by intros ?%elem_of_nil|].
  intros [<-|Hin]%elem_of_cons; [done|]. simpl. rewrite (IH Hin).
  by destruct a.
Qed.

Lemma Promise_all_files (images : list File.t) :
  Promise_all fileToInlinePart (map EntryFile images) =
    Ok (map (λ image, InlineDataPart (base64 (File.bytes image))
                                     (or_else (File.type image) (str "image/jpeg")))
            images).
Proof. induction images as [|f l IH]; [done|]. simpl. by rewrite IH. Qed.

(** X9.  When the upload of the video is rejected, the handler ends with
    the vendor's exception as it is; the copy, the upload and the removal
    are all it has done, and the model is not called. *)
Theorem upload_failure_stops_the_run
    (env : Env) (request : Request) (w : World) (videoFile : File.t) (e : exn) :
  writes_temp_file env request videoFile →
  uploadFile env (tempPathOf (randomUUID env) videoFile)
             (videoMimeType videoFile) (videoDisplayName videoFile) = Throw e →
  fst (POST env request w) = Throw e
  ∧ trace (snd (POST env request w)) =
      trace w ++
      [EvWrite (tempPathOf (randomUUID env) videoFile);
       EvUpload (tempPathOf (randomUUID env) videoFile)
                (videoMimeType videoFile) (videoDisplayName videoFile);
       EvUnlink (tempPathOf (randomUUID env) videoFile)].
Proof.
  intros (Hkey & (formData & Hform & Hvideo) & Hwrite) Hup.
  by rewrite (POST_after_write _ _ _ _ _ Hkey Hform Hvideo Hwrite), Hup.
Qed.

Lemma upload_failure_stops_the_run_witness :
  fst (POST (with_uploadFile (sample_env []) (λ _ _ _, Throw (VendorError "quota")))
            sample_request empty_world) = Throw (VendorError "quota")
  ∧ trace (snd (POST (with_uploadFile (sample_env [])
                                      (λ _ _ _, Throw (VendorError "quota")))
                     sample_request empty_world)) =
      [] ++
      [EvWrite (str "/tmp/yt-helper-3f0c-my_clip.mp4");
       EvUpload (str "/tmp/yt-helper-3f0c-my_clip.mp4") (str "video/mp4")
                (str "my clip.mp4");
       EvUnlink (str "/tmp/yt-helper-3f0c-my_clip.mp4")].
Proof.
  apply (upload_failure_stops_the_run
           (with_uploadFile (sample_env []) (λ _ _ _, Throw (VendorError "quota")))
           sample_request empty_world sample_video (VendorError "quota")).
  - split; [reflexivity|]. split; [|reflexivity].
    exists sample_form. split; reflexivity.
  - reflexivity.
Defined.

(** X10.  The [images] entries are not checked to be files.  An entry
    that is a string and not empty makes the handler end with a
    [TypeError], after the video has been copied, uploaded and removed and
    before the model is called. *)
Theorem text_image_entry_fails_after_upload
    (env : Env) (request : Request) (w : World) (formData : FormData.t)
    (videoFile : File.t) (upload : Upload) (s : js_string) :
  falsy (GEMINI_API_KEY env) = false →
  form request = Some formData →
  FormData.get formData (str "video") = Some (EntryFile videoFile) →
  pipeline env videoFile (tempPathOf (randomUUID env) videoFile) = Written →
  uploadFile env (tempPathOf (randomUUID env) videoFile)
             (videoMimeType videoFile) (videoDisplayName videoFile) = Ok upload →
  EntryString s ∈ FormData.getAll formData (str "images") →
  s ≠ [] →
  fst (POST env request w) = Throw (TypeError "file.arrayBuffer is not a function")
  ∧ trace (snd (POST env request w)) =
      trace w ++
      [EvWrite (tempPathOf (randomUUID env) videoFile);
       EvUpload (tempPathOf (randomUUID env) videoFile)
                (videoMimeType videoFile) (videoDisplayName videoFile);
       EvUnlink (tempPathOf (randomUUID env) videoFile)].
Proof.
  intros Hkey Hform Hvideo Hwrite Hup Hin Hs.
  rewrite (POST_after_write _ _ _ _ _ Hkey Hform Hvideo Hwrite), Hup.
  rewrite (Promise_all_string s); [done|].
  unfold imageFiles. apply list_elem_of_filter. split; [|done]. by destruct s.
Qed.

Lemma text_image_entry_fails_after_upload_witness :
  fst (POST (sample_env [])
            {| form := Some [(str "video", EntryFile sample_video);
                             (str "images", EntryString (str "photo.png"))] |}
            empty_world)
    = Throw (TypeError "file.arrayBuffer is not a function")
  ∧ trace (snd (POST (sample_env [])
                     {| form := Some [(str "video", EntryFile sample_video);
                                      (str "images", EntryString (str "photo.png"))] |}
                     empty_world)) =
      [] ++
      [EvWrite (str "/tmp/yt-helper-3f0c-my_clip.mp4");
       EvUpload (str "/tmp/yt-helper-3f0c-my_clip.mp4") (str "video/mp4")
                (str "my clip.mp4");
       EvUnlink (str "/tmp/yt-helper-3f0c-my_clip.mp4")].
Proof.
  apply (text_image_entry_fails_after_upload (sample_env [])
           {| form := Some [(str "video", EntryFile sample_video);
                            (str "images", EntryString (str "photo.png"))] |}
           empty_world
           [(str "video", EntryFile sample_video);
            (str "images", EntryString (str "photo.png"))]
           sample_video sample_upload (str "photo.png")).
  - reflexivity.
  - reflexivity.
  - reflexivity.
  - reflexivity.
  - reflexivity.
  - vm_compute. apply list_elem_of_here.
  - discriminate.
Defined.

(** ** Answers that are not the expected object *)

(** X11.  An answer that is valid JSON but neither an object nor [null]
    (an array, a string, a number, a boolean) has none of the four fields:
    the handler answers 200 with every field at its empty default. *)
Theorem non_object_answer_gives_defaults (text : js_string) (payload : json) :
  parseJsonResponse text = Ok payload →
  payload ≠ JNull →
  (∀ ms, payload ≠ JObject ms) →
  respond text = Ok (NextResponse_json empty_payload 200).
Proof.
  intros Hparse Hnull Hobj.
  rewrite (respond_parsed _ _ Hparse), safePayload_not_null by done.
  destruct payload; try done. by destruct (Hobj members).
Qed.

Lemma non_object_answer_gives_defaults_witness :
  respond (qstr "['Title one','Title two']") = Ok (NextResponse_json empty_payload 200).
Proof.
  apply (non_object_answer_gives_defaults (qstr "['Title one','Title two']")
           (JArray [JString (str "Title one"); JString (str "Title two")])).
  - vm_compute. reflexivity.
  - discriminate.
  - discriminate.
Defined.

Lemma parse_step_object_ahead (m m' : JSON.mode) (stack stack' : list JSON.frame)
    (t : JSON.token) :
  object_ahead m stack →
  JSON.parse_step m stack t = Some (m', stack') →
  object_ahead m' stack'.
Proof.
  unfold object_ahead. intros [Hb|[-> [ms ->]]]; [|by destruct t].
  destruct stack as [|f [|g r]]; [done| |];
    destruct m, t; try destruct f as [acc|acc [k|]]; simpl in *;
    intros; simplify_eq; eauto;
    try (match goal with
         | H : option_map _ (JSON.scalar ?t) = Some _ |- _ =>
             destruct (JSON.scalar t); simpl in H; simplify_eq
         end; eauto).
Qed.

Lemma parse_tokens_object_ahead (ts : list JSON.token) (m : JSON.mode)
    (stack : list JSON.frame) (v : json) :
  object_ahead m stack →
  JSON.parse_tokens m stack ts = Some v →
  ∃ ms, v = JObject ms.
Proof.
  revert m stack. induction ts as [|t ts IH]; intros m stack Hinv; simpl.
  - destruct Hinv as [Hb|[-> [ms ->]]]; [|intros [= <-]; eauto].
    destruct m, stack; try done.
  - destruct (JSON.parse_step m stack t) as [[m' stack']|] eqn:Hstep; [|done].
    apply IH. by eapply parse_step_object_ahead.
Qed.

Lemma lex_open_brace (r : js_string) :
  JSON.lex JSON.LIdle (ch "{" :: r)
  = option_map (app [JSON.TLBrace]) (JSON.lex JSON.LIdle r).
Proof. reflexivity. Qed.

(** A text that starts with an opening brace parses to an object, if it
    parses at all. *)
Lemma parse_brace_text (r : js_string) (v : json) :
  JSON.parse (ch "{" :: r) = Ok v → ∃ ms, v = JObject ms.
Proof.
  unfold JSON.parse. rewrite lex_open_brace.
  destruct (JSON.lex JSON.LIdle r) as [ts|]; [|done]. simpl.
  destruct (JSON.parse_tokens JSON.MObjectStart [JSON.FObject [] None] ts)
    as [v'|] eqn:Hp; [|done].
  intros [= <-]. eapply parse_tokens_object_ahead; [|exact Hp]. by left.
Qed.

(** X12.  When the strict parse fails and the fallback succeeds, the
    payload is an object: it is never [null], so the sanitisation does not
    throw and the handler answers 200. *)
Theorem fallback_payload_is_an_object (text : js_string) (e : exn) (payload : json) :
  JSON.parse text = Throw e →
  parseJsonResponse text = Ok payload →
  (∃ ms, payload = JObject ms)
  ∧ ∃ response, respond text = Ok response ∧ status response = 200.
Proof.
  intros Hstrict Hparse.
  assert (∃ ms, payload = JObject ms) as [ms ->].
  { unfold parseJsonResponse in Hparse. rewrite Hstrict in Hparse.
    destruct (regex_match braces_re text) as [m|] eqn:Hm; [|done].
    rewrite regex_match_braces in Hm.
    apply spec_first_brace_delimited_shape in Hm
      as (pre & inner & post & _ & -> & _).
    by eapply parse_brace_text. }
  split; [by exists ms|].
  rewrite (respond_parsed _ _ Hparse), safePayload_not_null by done.
  eexists. split; reflexivity.
Qed.

Lemma fallback_payload_is_an_object_witness :
  (∃ ms, JObject [(str "titles", JArray [JString (str "A")]);
                  (str "description", JString (str "d"));
                  (str "tags", JArray []);
                  (str "thumbnails", JArray [])] = JObject ms)
  ∧ ∃ response, respond fallback_sample = Ok response ∧ status response = 200.
Proof.
  apply (fallback_payload_is_an_object fallback_sample (SyntaxError fallback_sample)).
  - vm_compute. reflexivity.
  - vm_compute. reflexivity.
Defined.

Lemma forallb_not_elem (c : N) (l : js_string) :
  forallb (λ x, negb (x =? c)) l = true → c ∉ l.
Proof.
  intros H Hin. apply list_elem_of_In in Hin. rewrite forallb_forall in H.
  apply H in Hin. by rewrite N.eqb_refl in Hin.
Qed.

Lemma upto_last_brace_some (s : js_string) :
  ch "}" ∈ s → is_Some (upto_last_brace s).
Proof.
  induction s as [|c s IH]; [by intros ?%elem_of_nil|].
  rewrite upto_last_brace_cons. intros [<-|Hin]%elem_of_cons.
  - rewrite N.eqb_refl. by destruct (upto_last_brace s).
  - by destruct (IH Hin) as [m ->].
Qed.

(** X13.  The candidate of the fallback starts at the first opening brace
    of the text and ends at its last closing brace: no opening brace comes
    before it and no closing brace after it. *)
Theorem fallback_match_extent (text m : js_string) :
  regex_match braces_re text = Some m →
  ∃ pre inner post,
    text = pre ++ m ++ post
    ∧ m = ch "{" :: inner ++ [ch "}"]
    ∧ (ch "{" ∉ pre)
    ∧ (ch "}" ∉ post).
Proof.
  rewrite regex_match_braces. intros Hm.
  apply spec_first_brace_delimited_shape in Hm
    as (pre & inner & post & Htext & Hshape & Hpre & Hpost).
  exists pre, inner, post. repeat split; [done|done| |]; by apply forallb_not_elem.
Qed.

Lemma fallback_match_extent_witness :
  ∃ pre inner post,
    qstr "One: {'a':1}, two: {'b':2}." = pre ++ qstr "{'a':1}, two: {'b':2}" ++ post
    ∧ qstr "{'a':1}, two: {'b':2}" = ch "{" :: inner ++ [ch "}"]
    ∧ (ch "{" ∉ pre)
    ∧ (ch "}" ∉ post).
Proof.
  apply (fallback_match_extent (qstr "One: {'a':1}, two: {'b':2}.")).
  vm_compute. reflexivity.
Defined.

(** X14.  The fallback has a candidate exactly when some closing brace
    comes after some opening brace in the text. *)
Theorem fallback_has_candidate_iff (text : js_string) :
  is_Some (regex_match braces_re text)
  ↔ ∃ a b c, text = a ++ ch "{" :: b ++ ch "}" :: c.
Proof.
  split.
  - intros [m Hm].
    rewrite regex_match_braces in Hm.
    apply spec_first_brace_delimited_shape in Hm
      as (pre & inner & post & -> & -> & _).
    exists pre, inner, post. simpl. by rewrite <- app_assoc.
  - intros (a & b & c & ->). induction a as [|x a IH].
    + simpl app. rewrite regex_match_cons, match_here_braces_cons, N.eqb_refl.
      destruct (upto_last_brace_some (b ++ ch "}" :: c)) as [m ->]; [|done].
      apply elem_of_app. right. apply list_elem_of_here.
    + simpl app. rewrite regex_match_cons, match_here_braces_cons.
      destruct (ch "{" =? x); [|done].
      destruct (upto_last_brace_some (a ++ ch "{" :: b ++ ch "}" :: c)) as [m ->];
        [|done].
      apply elem_of_app. right. apply elem_of_cons. right.
      apply elem_of_app. right. apply list_elem_of_here.
Qed.

(** * Properties of the page *)



(** A 200 response whose body is [null] leaves the page with neither a
    result nor an error. *)
Lemma null_body_shows_nothing :
  Home.result
    (Home.handleAnalyze (λ _, []) (λ _, Home.Response 200 (Home.JsonOk JNull))
       (Home.onDropVideo [sample_video] Home.initial)) = None
  ∧ Home.error
      (Home.handleAnalyze (λ _, []) (λ _, Home.Response 200 (Home.JsonOk JNull))
         (Home.onDropVideo [sample_video] Home.initial)) = None.
Proof. split; reflexivity. Qed.

(** X16.  Without a chosen video, the page sends nothing: whatever the
    network would answer, it only sets the error asking for a video; a
    result shown before stays, and loading is not switched. *)
Theorem analysis_without_video_sends_nothing
    (ToString : json → js_string) (fetch fetch' : FormData.t → Home.fetched)
    (s : Home.State) :
  Home.videoFile s = None →
  Home.handleAnalyze ToString fetch s = Home.handleAnalyze ToString fetch' s
  ∧ Home.error (Home.handleAnalyze ToString fetch s)
    = Some (str "Please upload a video file.")
  ∧ Home.result (Home.handleAnalyze ToString fetch s) = Home.result s
  ∧ Home.isLoading (Home.handleAnalyze ToString fetch s) = Home.isLoading s.
Proof. intros Hv. unfold Home.handleAnalyze. by rewrite Hv. Qed.

Lemma analysis_without_video_sends_nothing_witness :
  Home.handleAnalyze (λ _, []) (λ _, Home.Response 200 (Home.JsonOk JNull)) Home.initial
  = Home.handleAnalyze (λ _, []) (λ _, Home.FetchRejected Home.NotAnError) Home.initial
  ∧ Home.error
      (Home.handleAnalyze (λ _, []) (λ _, Home.Response 200 (Home.JsonOk JNull)) Home.initial)
    = Some (str "Please upload a video file.")
  ∧ Home.result
      (Home.handleAnalyze (λ _, []) (λ _, Home.Response 200 (Home.JsonOk JNull)) Home.initial)
    = Home.result Home.initial
  ∧ Home.isLoading
      (Home.handleAnalyze (λ _, []) (λ _, Home.Response 200 (Home.JsonOk JNull)) Home.initial)
    = Home.isLoading Home.initial.
Proof.
  apply (analysis_without_video_sends_nothing (λ _, [])
           (λ _, Home.Response 200 (Home.JsonOk JNull))
           (λ _, Home.FetchRejected Home.NotAnError) Home.initial).
  reflexivity.
Defined.

(** X17.  On a response that is not ok, the page shows the generic
    message [Analysis failed.] whenever the body does not parse, is not an
    object, or has no [error] field other than [null]. *)
Theorem generic_message_without_error_field
    (ToString : json → js_string) (fetch : FormData.t → Home.fetched)
    (s : Home.State) (video : File.t) (status : N) (body : Home.json_outcome) :
  Home.videoFile s = Some video →
  fetch (Home.formData_of video (Home.imageFiles s) (Home.context s))
    = Home.Response status body →
  Home.ok status = false →
  (∀ ms, body = Home.JsonOk (JObject ms) →
         own_property (str "error") ms = None
         ∨ own_property (str "error") ms = Some JNull) →
  Home.error (Home.handleAnalyze ToString fetch s) = Some (str "Analysis failed.")
  ∧ Home.result (Home.handleAnalyze ToString fetch s) = None.
Proof.
  intros Hv Hfetch Hok Hbody. unfold Home.handleAnalyze, Home.exchange.
  rewrite Hv, Hfetch, Hok. unfold Home.failure_message.
  destruct body as [[]|]; try done.
  by destruct (Hbody members) as [->| ->].
Qed.

Lemma generic_message_without_error_field_witness :
  Home.error
    (Home.handleAnalyze (λ _, [])
       (λ _, Home.Response 500 (Home.JsonRejected (Home.ErrorObject (str "Unexpected token"))))
       (Home.onDropVideo [sample_video] Home.initial))
  = Some (str "Analysis failed.")
  ∧ Home.result
      (Home.handleAnalyze (λ _, [])
         (λ _, Home.Response 500 (Home.JsonRejected (Home.ErrorObject (str "Unexpected token"))))
         (Home.onDropVideo [sample_video] Home.initial))
    = None.
Proof.
  apply (generic_message_without_error_field (λ _, [])
           (λ _, Home.Response 500 (Home.JsonRejected (Home.ErrorObject (str "Unexpected token"))))
           (Home.onDropVideo [sample_video] Home.initial) sample_video 500
           (Home.JsonRejected (Home.ErrorObject (str "Unexpected token")))).
  - reflexivity.
  - reflexivity.
  - reflexivity.
  - discriminate.
Defined.

(** * Requests made of files, and error bodies *)

(** X18.  A request whose [video] entry is a file, whose [images]
    entries are all files and whose [context] entry is a text reaches the
    model: with a credential, a successful copy and a successful upload,
    the model is called once, with the prompt for the trimmed context, the
    reference to the uploaded video, and one inline part for each image in
    the order of the form (its bytes in base64, its type or [image/jpeg]
    when the type is empty), and the handler's outcome is the one of the
    model's answer. *)
Theorem files_request_reaches_model
    (env : Env) (request : Request) (w : World) (formData : FormData.t)
    (video : File.t) (images : list File.t) (ctx : js_string)
    (upload : Upload) (text : js_string) :
  falsy (GEMINI_API_KEY env) = false →
  form request = Some formData →
  FormData.get formData (str "video") = Some (EntryFile video) →
  FormData.getAll formData (str "images") = map EntryFile images →
  FormData.get formData (str "context") = Some (EntryString ctx) →
  pipeline env video (tempPathOf (randomUUID env) video) = Written →
  uploadFile env (tempPathOf (randomUUID env) video)
             (videoMimeType video) (videoDisplayName video) = Ok upload →
  generateContent env (parts_for upload images ctx) = Ok text →
  POST env request w
  = (respond text, after_generate env video (parts_for upload images ctx) w).
Proof.
  intros Hkey Hform Hvideo Himages Hctx Hwrite Hup Hgen.
  rewrite (POST_after_write _ _ _ _ _ Hkey Hform Hvideo Hwrite), Hup.
  assert (imageFiles formData = map EntryFile images) as ->.
  { unfold imageFiles. rewrite Himages. clear.
    induction images as [|image images IH]; [done|]. simpl map.
    rewrite filter_cons_True by done. by rewrite IH. }
  rewrite Promise_all_files. cbv zeta.
  assert (contents formData upload
            (map (λ image, InlineDataPart (base64 (File.bytes image))
                                          (or_else (File.type image) (str "image/jpeg")))
                 images)
          = parts_for upload images ctx) as ->.
  { unfold contents, parts_for, context, supplied_context. by rewrite Hctx. }
  by rewrite Hgen.
Qed.

Lemma files_request_reaches_model_witness :
  POST (sample_env (qstr "{'titles':['A']}"))
       {| form := Some [(str "video", EntryFile sample_video);
                        (str "images", EntryFile sample_video);
                        (str "context", EntryString (str " cooking "))] |}
       empty_world
  = (respond (qstr "{'titles':['A']}"),
     after_generate (sample_env (qstr "{'titles':['A']}")) sample_video
       (parts_for sample_upload [sample_video] (str " cooking ")) empty_world).
Proof.
  apply (files_request_reaches_model (sample_env (qstr "{'titles':['A']}"))
           {| form := Some [(str "video", EntryFile sample_video);
                            (str "images", EntryFile sample_video);
                            (str "context", EntryString (str " cooking "))] |}
           empty_world
           [(str "video", EntryFile sample_video);
            (str "images", EntryFile sample_video);
            (str "context", EntryString (str " cooking "))]
           sample_video [sample_video] (str " cooking ") sample_upload
           (qstr "{'titles':['A']}")); reflexivity.
Defined.

(** X19.  On a response that is not ok and whose body is an object with
    a text in its [error] field, the page shows exactly that text, holds
    no result, and loading is off. *)
Theorem error_field_is_shown
    (ToString : json → js_string) (fetch : FormData.t → Home.fetched)
    (s : Home.State) (video : File.t) (status : N)
    (ms : list (js_string * json)) (message : js_string) :
  Home.videoFile s = Some video →
  fetch (Home.formData_of video (Home.imageFiles s) (Home.context s))
    = Home.Response status (Home.JsonOk (JObject ms)) →
  Home.ok status = false →
  own_property (str "error") ms = Some (JString message) →
  Home.error (Home.handleAnalyze ToString fetch s) = Some message
  ∧ Home.result (Home.handleAnalyze ToString fetch s) = None
  ∧ Home.isLoading (Home.handleAnalyze ToString fetch s) = false.
Proof.
  intros Hv Hfetch Hok Herr. unfold Home.handleAnalyze, Home.exchange.
  rewrite Hv, Hfetch, Hok. unfold Home.failure_message. by rewrite Herr.
Qed.

Lemma error_field_is_shown_witness :
  Home.error
    (Home.handleAnalyze (λ _, [])
       (λ _, Home.Response 500
               (Home.JsonOk (error_body "Missing GEMINI_API_KEY environment variable.")))
       (Home.onDropVideo [sample_video] Home.initial))
  = Some (str "Missing GEMINI_API_KEY environment variable.")
  ∧ Home.result
      (Home.handleAnalyze (λ _, [])
         (λ _, Home.Response 500
                 (Home.JsonOk (error_body "Missing GEMINI_API_KEY environment variable.")))
         (Home.onDropVideo [sample_video] Home.initial)) = None
  ∧ Home.isLoading
      (Home.handleAnalyze (λ _, [])
         (λ _, Home.Response 500
                 (Home.JsonOk (error_body "Missing GEMINI_API_KEY environment variable.")))
         (Home.onDropVideo [sample_video] Home.initial)) = false.
Proof.
  apply (error_field_is_shown (λ _, [])
           (λ _, Home.Response 500
                   (Home.JsonOk (error_body "Missing GEMINI_API_KEY environment variable.")))
           (Home.onDropVideo [sample_video] Home.initial) sample_video 500
           [(str "error", JString (str "Missing GEMINI_API_KEY environment variable."))]
           (str "Missing GEMINI_API_KEY environment variable.")); reflexivity.
Defined.
